(** * node-mongo: a shallow embedding of [Collection] and [Database]

    The repository wraps the MongoDB driver in two classes.  [Collection]
    offers CRUD helpers with logging and two filter passes
    ([processFilter], [sanitizeFilter]); [Database] connects, discovers the
    existing collections and creates the requested ones.

    The embedding keeps the shape of the JavaScript:
    - JavaScript values are a tree ([value]); an object is the list of its
      own enumerable properties in [for..in] order (a JavaScript object
      holds each key once; where a statement needs it, it says [NoDup]);
    - a method that mutates its argument in place returns the state in
      which it leaves that argument (filters are built per call and are
      trees: no two properties share a sub-object);
    - an [async] method is a computation in the monad [M]: it threads the
      state of the remote store, appends to the trace of logger and driver
      calls, and settles as [Ok v] (resolved) or [Throw e] (rejected);
    - the driver ([mongodb]) is not part of the repository: it is an
      interface (type classes [Bson], [NativeCollection], [MongoClient]),
      and every theorem holds for all its implementations. *)

From Stdlib Require Import ZArith String Ascii DecimalString.
From stdpp Require Import base option list strings gmap.

Open Scope string_scope.
Open Scope list_scope.
Open Scope nat_scope.
Set Warnings "-register-all".

(** ** JavaScript values *)

Inductive value : Type :=
| VUndef
| VNull
| VBool (b : bool)
| VNum (n : Z)
| VStr (s : string)
| VOid (id : string)                    (* an instance of Mongo.ObjectID *)
| VArr (elems : list value)
| VObj (props : list (string * value)).

(** Induction on values, with the hypothesis for every element of an
    array and every property of an object. *)
Section ValueInd.
Variable P : value → Prop.
Hypothesis Hundef : P VUndef.
Hypothesis Hnull : P VNull.
Hypothesis Hbool : ∀ b, P (VBool b).
Hypothesis Hnum : ∀ n, P (VNum n).
Hypothesis Hstr : ∀ s, P (VStr s).
Hypothesis Hoid : ∀ id, P (VOid id).
Hypothesis Harr : ∀ l, Forall P l → P (VArr l).
Hypothesis Hobj : ∀ kvs, Forall (fun p => P p.2) kvs → P (VObj kvs).

Fixpoint value_ind' (v : value) : P v :=
  match v with
  | VUndef => Hundef
  | VNull => Hnull
  | VBool b => Hbool b
  | VNum n => Hnum n
  | VStr s => Hstr s
  | VOid id => Hoid id
  | VArr l =>
      Harr l ((fix all (l : list value) : Forall P l :=
                 match l with
                 | [] => List.Forall_nil P
                 | x :: l' => List.Forall_cons P x l' (value_ind' x) (all l')
                 end) l)
  | VObj kvs =>
      Hobj kvs
        ((fix all (kvs : list (string * value))
            : Forall (fun p => P p.2) kvs :=
            match kvs with
            | [] => List.Forall_nil _
            | p :: kvs' =>
                List.Forall_cons (fun p => P p.2) p kvs' (value_ind' p.2)
                  (all kvs')
            end) kvs)
  end.
End ValueInd.

(** Errors that a call can throw, after the taxonomy of the
    specification. *)
Inductive error : Type :=
| InvalidIdentifierFormat (arg : value) (* thrown by new Mongo.ObjectID *)
| OperationFailure (msg : string)       (* a driver call rejected *)
| ConnectionFailure (msg : string)
| TypeError (msg : string).

Inductive result (A : Type) : Type :=
| Ok (a : A)
| Throw (e : error).
Arguments Ok {A} a.
Arguments Throw {A} e.

Inductive jstype := TUndefined | TObject | TBoolean | TNumber | TString.

Definition typeof (v : value) : jstype :=
  match v with
  | VUndef => TUndefined
  | VNull => TObject
  | VBool _ => TBoolean
  | VNum _ => TNumber
  | VStr _ => TString
  | VOid _ | VArr _ | VObj _ => TObject
  end.

Definition isArray (v : value) : bool :=
  match v with VArr _ => true | _ => false end.

(** Truthiness of a value, as tested by [if (x)]. *)
Definition truthy (v : value) : bool :=
  match v with
  | VUndef | VNull => false
  | VBool b => b
  | VNum n => negb (n =? 0)%Z
  | VStr s => negb (String.eqb s "")
  | VOid _ | VArr _ | VObj _ => true
  end.

(** Property keys: a name, or an array index. *)
Inductive key := Name (s : string) | Index (i : nat).

Definition key_eqb (a b : key) : bool :=
  match a, b with
  | Name s, Name t => String.eqb s t
  | Index i, Index j => Nat.eqb i j
  | _, _ => false
  end.

Module Assoc.
(** Own properties of an object, in enumeration order. *)

Fixpoint get (k : string) (kvs : list (string * value)) : option value :=
  match kvs with
  | [] => None
  | (k', v) :: rest => if String.eqb k' k then Some v else get k rest
  end.

(** [o[k] = x]: overwrite the property where it stands, or append it. *)
Fixpoint set (k : string) (x : value) (kvs : list (string * value))
  : list (string * value) :=
  match kvs with
  | [] => [(k, x)]
  | (k', v) :: rest =>
      if String.eqb k' k then (k, x) :: rest else (k', v) :: set k x rest
  end.

(** [delete o[k]]. *)
Fixpoint remove (k : string) (kvs : list (string * value))
  : list (string * value) :=
  match kvs with
  | [] => []
  | (k', v) :: rest =>
      if String.eqb k' k then remove k rest else (k', v) :: remove k rest
  end.
End Assoc.

(** The keys visited by [for (k in v)].  An ObjectID instance has no
    array-valued property and no property named [_id]; the loops below act
    on nothing else, so it is enumerated as having no keys. *)
Definition enumerate (v : value) : list key :=
  match v with
  | VObj kvs => Name <$> kvs.*1
  | VArr l => Index <$> seq 0 (length l)
  | VStr s => Index <$> seq 0 (String.length s)
  | _ => []
  end.

(** [v[k]] *)
Definition get (v : value) (k : key) : value :=
  match v, k with
  | VObj kvs, Name s => default VUndef (Assoc.get s kvs)
  | VArr l, Index i => default VUndef (l !! i)
  | VStr s, Index i =>
      match String.get i s with
      | Some c => VStr (String c EmptyString)
      | None => VUndef
      end
  | _, _ => VUndef
  end.

(** The state of [v] after [v[k] = x].  An array written past its end
    grows, the gap reading [undefined]; a write to a primitive is lost. *)
Definition set (v : value) (k : key) (x : value) : value :=
  match v, k with
  | VObj kvs, Name s => VObj (Assoc.set s x kvs)
  | VArr l, Index i =>
      if decide (i < length l)%nat then VArr (<[i := x]> l)
      else VArr (l ++ replicate (i - length l) VUndef ++ [x])
  | _, _ => v
  end.

Definition js_length (v : value) : nat :=
  match v with
  | VArr l => length l
  | VStr s => String.length s
  | _ => 0
  end.

(** A loop whose body may throw: the state reached, and how it ended. *)
Fixpoint for_loop {K St : Type} (ks : list K)
    (body : K → St → St * result unit) (st : St) : St * result unit :=
  match ks with
  | [] => (st, Ok tt)
  | k :: ks' =>
      match body k st with
      | (st', Ok _) => for_loop ks' body st'
      | (st', Throw e) => (st', Throw e)
      end
  end.

(** ** Asynchronous methods

    What a method lets the outside see: the entries it hands to its logger
    and the calls it makes on the driver, in order. *)

Inductive level := Debug | Verbose | Info | Warning | Error.

Inductive payload :=
| Text (s : string)
| TextWith (s : string) (v : value)     (* a template literal around [v] *)
| Dump (v : value)
| Failure (e : error).

Inductive call :=
| DeleteOne (filter : value)
| FindOne (filter options : value)
| Find (filter options : value)
| ToArray (cursor : value)
| CountDocuments (filter options : value)
| InsertOne (document options : value)
| ReplaceOne (filter document options : value)
| UpdateOne (filter update options : value)
| Drop
| DeleteMany (filter : value)
| Connect
| IsConnected
| ListCollections
| CreateCollection (name : string).

Inductive event :=
| Logged (lvl : level) (p : payload)
| Called (c : call).

(** A computation over a state [St]: the state it leaves, what it
    emitted, and how its promise settles. *)
Definition M (St A : Type) : Type := St → St * list event * result A.

Definition ret {St A} (a : A) : M St A := fun st => (st, [], Ok a).

Definition throw {St A} (e : error) : M St A := fun st => (st, [], Throw e).

Definition bind {St A B} (m : M St A) (f : A → M St B) : M St B :=
  fun st =>
    match m st with
    | (st1, t1, Ok a) =>
        let '(st2, t2, r) := f a st1 in (st2, t1 ++ t2, r)
    | (st1, t1, Throw e) => (st1, t1, Throw e)
    end.

(** [m.catch(handler)] *)
Definition catch {St A} (m : M St A) (handler : error → M St A) : M St A :=
  fun st =>
    match m st with
    | (st1, t1, Ok a) => (st1, t1, Ok a)
    | (st1, t1, Throw e) =>
        let '(st2, t2, r) := handler e st1 in (st2, t1 ++ t2, r)
    end.

Definition log {St} (lvl : level) (p : payload) : M St unit :=
  fun st => (st, [Logged lvl p], Ok tt).

(** A call on the driver, answered by [answer]. *)
Definition request {St A} (c : call) (answer : St → result A * St)
  : M St A :=
  fun st => let '(r, st') := answer st in (st', [Called c], r).

Definition of_result {St A} (r : result A) : M St A :=
  fun st => (st, [], r).

Notation "x <- m ;; k" := (bind m (fun x => k))
  (at level 100, m at next level, right associativity, only parsing).
Notation "m ;;; k" := (bind m (fun _ => k))
  (at level 100, right associativity, only parsing).

Definition settled {St A} (x : St * list event * result A) : result A := x.2.
Definition emitted {St A} (x : St * list event * result A) : list event :=
  x.1.2.
Definition final {St A} (x : St * list event * result A) : St := x.1.1.

(** The driver calls of a trace, in order. *)
Fixpoint calls_of (tr : list event) : list call :=
  match tr with
  | [] => []
  | Called c :: tr' => c :: calls_of tr'
  | Logged _ _ :: tr' => calls_of tr'
  end.

(** A default parameter: [f(x = d)]. *)
Definition default_arg (d v : value) : value :=
  match v with VUndef => d | _ => v end.

(** [delete v[k]] on a value: it throws on [undefined] and [null]. *)
Definition delete_prop (v : value) (k : string) : result value :=
  match v with
  | VUndef | VNull =>
      Throw (TypeError "Cannot convert undefined or null to object")
  | VObj kvs => Ok (VObj (Assoc.remove k kvs))
  | _ => Ok v
  end.

(** ** The BSON library: [new Mongo.ObjectID(x)]

    The constructor is taken as a function of its argument: the
    identifier it builds, or [None] when it rejects the argument.  (For
    [null], [undefined] and a number the driver generates an identifier;
    the passes below hand it strings.) *)

Class Bson := {
  ObjectID_of : value → option string
}.

(** ** The native collection of the driver

    Each method answers from the state [S] of the remote store, and may
    reject.  The results carry the counters the wrapper reads. *)

Record DeleteResult := { deletedCount : Z }.
Record UpdateResult :=
  { matchedCount : Z; modifiedCount : Z; upsertedCount : Z }.
Record InsertResult := { insertedCount : Z; insertedId : value }.

Class NativeCollection (S : Type) := {
  coll_deleteOne : value → S → result DeleteResult * S;
  coll_findOne : value → value → S → result value * S;
  coll_find : value → value → S → result value * S;
  cursor_toArray : value → S → result (list value) * S;
  coll_countDocuments : value → value → S → result value * S;
  coll_insertOne : value → value → S → result InsertResult * S;
  coll_replaceOne : value → value → value → S → result UpdateResult * S;
  coll_updateOne : value → value → value → S → result UpdateResult * S;
  coll_drop : S → result value * S;
  coll_deleteMany : value → S → result value * S
}.

(** [if (n)] on a counter. *)
Definition nonzero (n : Z) : bool := negb (n =? 0)%Z.

Module Collection.

Section Filters.
Context `{Bson}.

Definition new_ObjectID (x : value) : result value :=
  match ObjectID_of x with
  | Some id => Ok (VOid id)
  | None => Throw (InvalidIdentifierFormat x)
  end.

(** [for (let i = 0; i < arr.length; i++) arr[i] = new ObjectID(arr[i])] *)
Definition coerce_elements (arr : value) : value * result unit :=
  for_loop (seq 0 (js_length arr))
    (fun i arr =>
       match new_ObjectID (get arr (Index i)) with
       | Ok oid => (set arr (Index i) oid, Ok tt)
       | Throw e => (arr, Throw e)
       end) arr.

(** [for (let k2 in id) if (Array.isArray(id[k2])) ...]; the array is
    mutated in place, which the tree records by writing it back. *)
Definition coerce_operators (id : value) : value * result unit :=
  for_loop (enumerate id)
    (fun k2 id =>
       if isArray (get id k2) then
         let '(arr, r) := coerce_elements (get id k2) in
         (set id k2 arr, r)
       else (id, Ok tt)) id.

(** [processFilter(filter)]: the state in which the filter is left, and
    [Ok tt] when the method returns (it returns that same filter) or
    the error it throws. *)
Definition processFilter (filter : value) : value * result unit :=
  for_loop (enumerate filter)
    (fun k1 filter =>
       if key_eqb k1 (Name "_id") then
         match typeof (get filter k1) with
         | TString =>
             match new_ObjectID (get filter k1) with
             | Ok oid => (set filter k1 oid, Ok tt)
             | Throw e => (filter, Throw e)
             end
         | TObject =>
             let '(id, r) := coerce_operators (get filter k1) in
             (set filter k1 id, r)
         | _ => (filter, Ok tt)
         end
       else (filter, Ok tt)) filter.

(** The native form of [x]: what [new Mongo.ObjectID(x)] returns. *)
Definition native_form (x : value) : value :=
  match ObjectID_of x with
  | Some id => VOid id
  | None => x
  end.

(** An operator of the [_id] criterion with its sequence coerced. *)
Definition coerced_operator (p : string * value) : string * value :=
  match p.2 with
  | VArr l => (p.1, VArr (native_form <$> l))
  | _ => p
  end.

(** The operators whose sequences hold only values that the
    constructor accepts. *)
Definition acceptable (ops : list (string * value)) : Prop :=
  ∀ k l x, (k, VArr l) ∈ ops → x ∈ l → is_Some (ObjectID_of x).

End Filters.

(** The key tested by [/^\$/]: it begins with a dollar sign. *)
Definition reserved (k : string) : bool :=
match k with
| String c _ => Ascii.eqb c "$"%char
| EmptyString => false
end.

(** Modelled from the spec: the leaf sanitizer is the package
  [mongo-sanitize], which is not part of the repository.  It strips from
  a mapping every key that begins with the reserved prefix, in place,
  and returns its argument; an array has only index keys, and any other
  value is returned as it is. *)
Definition sanitize (v : value) : value :=
match v with
| VObj kvs => VObj (List.filter (fun p => negb (reserved p.1)) kvs)
| _ => v
end.

(** The state of [elm] after a call [f(elm)] that returned [r], for a
  method that mutates its argument and returns it: a missing argument
  is replaced inside the call by a fresh [{}], and stays missing. *)
Definition left_as (elm r : value) : value :=
match elm with VUndef => VUndef | _ => r end.

(** [sanitizeFilter(filter={})].  The recursive calls are made for their
  effect on the elements; [fuel] bounds the depth of the calls. *)
Fixpoint sanitizeFilter_rec (fuel : nat) (arg : value) : option value :=
match fuel with
| O => None
| S n =>
    let filter := match arg with VUndef => VObj [] | _ => arg end in
    let visit (elm : value) : option value :=
      r ← sanitizeFilter_rec n elm; Some (left_as elm r) in
    (* if (Array.isArray(filter)) filter.forEach(...) *)
    s1 ← match filter with
         | VArr l => VArr <$> mapM visit l
         | _ => Some filter
         end;
    (* if (typeof filter === 'object' && filter !== null)
         Object.values(filter).forEach(...) *)
    s2 ← match s1 with
         | VArr l => VArr <$> mapM visit l
         | VObj kvs => VObj <$> mapM (fun p => pair p.1 <$> visit p.2) kvs
         | _ => Some s1
         end;
    Some (sanitize s2)
end.

(** Depth of nesting of a value: the calls of [sanitizeFilter] on [v]
  nest [S (height v)] deep. *)
Fixpoint height (v : value) : nat :=
match v with
| VArr l => S (list_max (List.map height l))
| VObj kvs => S (list_max (List.map (fun p => height p.2) kvs))
| _ => 0
end.

Definition sanitizeFilter (filter : value) : option value :=
sanitizeFilter_rec (S (height filter)) filter.

(** What the specification asks of the result: no mapping, at any depth,
  has a key that begins with the reserved prefix. *)
Fixpoint no_reserved_key (v : value) : bool :=
match v with
| VArr l => forallb no_reserved_key l
| VObj kvs =>
    forallb (fun p => negb (reserved p.1) && no_reserved_key p.2) kvs
| _ => true
end.

(** The value with every reserved key dropped, written by recursion on
  the tree; [sanitizeFilter] is compared with it below. *)
Fixpoint strip (v : value) : value :=
match v with
| VArr l => VArr (List.map strip l)
| VObj kvs =>
    VObj (List.filter (fun p => negb (reserved p.1))
            (List.map (fun p => (p.1, strip p.2)) kvs))
| _ => v
end.

Section Methods.
Context `{Bson} {S : Type} `{NativeCollection S}.

(** [filter = this.processFilter(filter)] inside an async method *)
Definition processed (filter : value) : M S value :=
  match processFilter filter with
  | (filter', Ok _) => ret filter'
  | (_, Throw e) => throw e
  end.

Definition deleteDocument (filter options : value) : M S value :=
  let options := default_arg (VObj []) options in
  log Debug (Text "Deleting document") ;;;
  log Verbose (Dump filter) ;;;
  log Verbose (Dump options) ;;;
  filter <- processed filter ;;
  result <- request (DeleteOne filter) (coll_deleteOne filter) ;;
  if nonzero (deletedCount result) then
    log Info (Text "Deleted document") ;;;
    ret (VBool true)
  else
    log Error (Text "Failed to delete document") ;;;
    ret (VBool false).

Definition getDocument (filter options : value) : M S value :=
  let options := default_arg (VObj []) options in
  log Debug (Text "Getting document") ;;;
  log Verbose (Dump filter) ;;;
  log Verbose (Dump options) ;;;
  filter <- processed filter ;;
  item <- request (FindOne filter options) (coll_findOne filter options) ;;
  (if truthy item then log Debug (Text "Got document")
   else log Debug (Text "Failed to find document")) ;;;
  ret item.

Definition getDocuments (filter options : value) : M S value :=
  let filter := default_arg (VObj []) filter in
  let options := default_arg (VObj [("limit", VNum 10)]) options in
  log Debug (Text "Getting documents") ;;;
  log Verbose (Dump filter) ;;;
  log Verbose (Dump options) ;;;
  filter <- processed filter ;;
  cursor <- request (Find filter options) (coll_find filter options) ;;
  result <- request (ToArray cursor) (cursor_toArray cursor) ;;
  ret (VArr result).

Definition getCount (filter options : value) : M S value :=
  let filter := default_arg (VObj []) filter in
  let options := default_arg (VObj []) options in
  log Debug (Text "Getting document count") ;;;
  log Verbose (Dump options) ;;;
  request (CountDocuments filter options)
    (coll_countDocuments filter options).

Definition insertDocument (document options : value) : M S InsertResult :=
  let options := default_arg (VObj []) options in
  log Debug (Text "Inserting document") ;;;
  log Verbose (Dump document) ;;;
  log Verbose (Dump options) ;;;
  result <- request (InsertOne document options)
              (coll_insertOne document options) ;;
  (if nonzero (insertedCount result) then
     log Info (TextWith "Inserted document " (insertedId result))
   else log Error (Text "Failed to insert document")) ;;;
  ret result.

Definition replaceDocument (filter document options : value) : M S value :=
  let options := default_arg (VObj []) options in
  document <- of_result (delete_prop document "_id") ;;
  log Debug (Text "Replacing document") ;;;
  log Verbose (Dump filter) ;;;
  log Verbose (Dump document) ;;;
  log Verbose (Dump options) ;;;
  filter <- processed filter ;;
  result <- request (ReplaceOne filter document options)
              (coll_replaceOne filter document options) ;;
  if nonzero (modifiedCount result) then
    log Info (Text "Replaced document") ;;;
    ret (VBool true)
  else
    log Error (Text "Failed to replace document") ;;;
    ret (VBool false).

Definition updateDocument (filter update options : value) : M S value :=
  let options := default_arg (VObj []) options in
  update <- of_result (delete_prop update "_id") ;;
  log Debug (Text "Updating document") ;;;
  log Verbose (Dump filter) ;;;
  log Verbose (Dump update) ;;;
  log Verbose (Dump options) ;;;
  filter <- processed filter ;;
  result <- request (UpdateOne filter update options)
              (coll_updateOne filter update options) ;;
  if nonzero (modifiedCount result) then
    log Info (Text "Updated document") ;;;
    ret (VBool true)
  else
    log Warning (Text "Failed to update document") ;;;
    ret (VBool false).

(** [this.collection.drop().then(...).catch(...)]: both handlers
    return nothing, so the promise resolves with [undefined]. *)
Definition drop : M S value :=
  log Debug (Text "Dropping collection") ;;;
  catch
    (request Drop coll_drop ;;;
     log Info (Text "Dropped collection") ;;;
     ret VUndef)
    (fun err =>
       log Error (Text "Failed to drop collection") ;;;
       log Error (Failure err) ;;;
       ret VUndef).

Definition wipe : M S value :=
  log Debug (Text "Wiping collection") ;;;
  catch
    (request (DeleteMany (VObj [])) (coll_deleteMany (VObj [])) ;;;
     log Info (Text "Wiped collection") ;;;
     ret VUndef)
    (fun err =>
       log Error (Text "Failed to wipe collection") ;;;
       log Error (Failure err) ;;;
       ret VUndef).

End Methods.

End Collection.

(** ** The client of the driver, as [Database] uses it *)

Class MongoClient (C : Type) := {
  client_connect : C → result unit * C;
  client_isConnected : C → result bool * C;
  (** [db.listCollections().toArray(cb)]: the names of the items *)
  db_listCollections : C → result (list string) * C;
  db_createCollection : string → C → result unit * C
}.

(** ** The conversion of a value to a string

    A template literal converts the values it holds with the ToString of
    the JavaScript runtime.  It is taken as a function, of which only the
    case of a string is used: a string converts to itself. *)

Class Stringify := {
  to_string : value → string;
  to_string_VStr : ∀ s, to_string (VStr s) = s
}.

Module Database.

(** A registered wrapper: [new Collection(this.db.collection(name))]. *)
Record wrapper := { collectionName : string }.

(** The fields of a [Database] object that its methods read or write. *)
Record t := {
  name : string;
  url : string;
  collection_names : list string;
  db : option string;
  collections : gmap string wrapper
}.

Definition with_db (d : option string) (this : t) : t :=
  {| name := name this; url := url this;
     collection_names := collection_names this;
     db := d; collections := collections this |}.

Definition with_collections (cs : gmap string wrapper) (this : t) : t :=
  {| name := name this; url := url this;
     collection_names := collection_names this;
     db := db this; collections := cs |}.

Section Methods.
Context {C : Type} `{MongoClient C}.

(** The state: the remote server, and [this]. *)
Definition read {A} (f : t → A) : M (C * t) A :=
  fun st => (st, [], Ok (f st.2)).

Definition write (f : t → t) : M (C * t) unit :=
  fun st => ((st.1, f st.2), [], Ok tt).

Definition ask {A} (c : call) (answer : C → result A * C) : M (C * t) A :=
  request c (fun st => let '(r, c') := answer st.1 in (r, (c', st.2))).

(** A callback [(err, x) => ...] receives how the call went. *)
Definition outcome {St A} (m : M St A) : M St (result A) :=
  fun st => let '(st', tr, r) := m st in (st', tr, Ok r).

Fixpoint for_each {St A} (l : list A) (body : A → M St unit) : M St unit :=
  match l with
  | [] => ret tt
  | x :: l' => body x ;;; for_each l' body
  end.

Definition connect : M (C * t) value :=
  url <- read url ;;
  log Debug (Text ("Connecting to " +:+ url)) ;;;
  ask Connect client_connect ;;;
  connected <- ask IsConnected client_isConnected ;;
  if (connected : bool) then
    log Info (Text ("Connected to " +:+ url)) ;;;
    ret (VBool true)
  else
    throw (ConnectionFailure ("Failed to connect to " +:+ url)).

(** [this.client.db(name)] *)
Definition getDatabase (name : string) : option string := Some name.

Definition getCollection (name : string) : M (C * t) (option wrapper) :=
  read (fun this => collections this !! name).

(** The TypeError of [this.db.method(...)] while [this.db] is [null]
    (the text of the message is the engine's; this is the one of V8). *)
Definition null_db (method : string) : error :=
  TypeError ("Cannot read properties of null (reading '" +:+ method +:+ "')").

(** [this.db.listCollections()] is evaluated inside the executor of the
    promise: with no [db] the promise rejects. *)
Definition getCollections : M (C * t) unit :=
  log Debug (Text "Getting database collections") ;;;
  database <- read db ;;
  match database with
  | None => throw (null_db "listCollections")
  | Some _ =>
      listed <- outcome (ask ListCollections db_listCollections) ;;
      match listed with
      | Throw err =>
          log Error (Text "Failed to get database collections") ;;;
          throw err
      | Ok items =>
          if (length items =? 0)%nat then
            log Info (Text "No collections found") ;;;
            ret tt
          else
            for_each items (fun name =>
              let collection := {| collectionName := name |} in
              write (fun this =>
                       with_collections
                         (<[name := collection]> (collections this)) this) ;;;
              log Debug (Text ("Found collection " +:+ name)))
      end
  end.

(** [this.db.createCollection(name)] is evaluated before the chain of
    [.then] and [.catch] exists: with no [db] the method throws, and
    nothing catches it. *)
Definition createCollection (name : string) : M (C * t) value :=
  log Debug (Text ("Creating " +:+ name +:+ " collection")) ;;;
  database <- read db ;;
  match database with
  | None => throw (null_db "createCollection")
  | Some _ =>
      catch
        (ask (CreateCollection name) (db_createCollection name) ;;;
         log Info (Text ("Created " +:+ name +:+ " collection")) ;;;
         let collection := {| collectionName := name |} in
         write (fun this =>
                  with_collections (<[name := collection]> (collections this))
                    this) ;;;
         ret VUndef)
        (fun err =>
           log Error (Text ("Failed to create " +:+ name +:+ " collection")) ;;;
           log Error (Failure err) ;;;
           ret VUndef)
  end.

(** The names of [requested] that are not keys of the registry. *)
Definition missing_of (registry : gmap string wrapper)
    (requested : list string) : list string :=
  List.filter
    (fun name =>
       negb (existsb (fun key => String.eqb name key)
               (map_to_list registry).*1))
    requested.

Definition createCollections (requested : list string) : M (C * t) unit :=
  registry <- read collections ;;
  let missing := missing_of registry requested in
  for_each missing (fun name => createCollection name ;;; ret tt).

Definition initialize : M (C * t) value :=
  connect ;;;
  name <- read name ;;
  write (with_db (getDatabase name)) ;;;
  getCollections ;;;
  requested <- read collection_names ;;
  createCollections requested ;;;
  ret (VBool true).

End Methods.

Section Construction.
Context `{Stringify}.

(** [typeof v === "string" && v.length] *)
Definition nonempty_string (v : value) : bool :=
  match typeof v with
  | TString => negb (js_length v =? 0)
  | _ => false
  end.

(** [createUrl({username, password, host, port, name})]: what it logs,
    and the url it returns. *)
Definition createUrl (username password host port name : value)
  : list event * string :=
  let url := "mongodb://" in
  let url :=
    if nonempty_string username then
      if nonempty_string password then
        url +:+ (to_string username +:+ ":" +:+ to_string password +:+ "@")
      else url
    else url in
  let url := url +:+ (to_string host +:+ ":" +:+ to_string port) in
  let url :=
    if nonempty_string name then url +:+ ("/" +:+ to_string name)
    else url in
  ([Logged Verbose (Text ("Generated url " +:+ url))], url).

(** The options of the constructor.  A field that the caller leaves out
    is [undefined] ([None] for the two fields that the methods use at a
    fixed type: the name of the database and the requested names). *)
Record options := {
  opt_name : option string;
  opt_host : value;
  opt_port : value;
  opt_username : value;
  opt_password : value;
  opt_url : value;
  opt_collection_names : option (list string)
}.

(** [new Database(options)]: what it logs, and the object. *)
Definition constructor (o : options) : list event * t :=
  let name := default "admin" (opt_name o) in
  let host := default_arg (VStr "localhost") (opt_host o) in
  let port := default_arg (VNum 27017) (opt_port o) in
  let username := default_arg (VStr "") (opt_username o) in
  let password := default_arg (VStr "") (opt_password o) in
  let url := default_arg VNull (opt_url o) in
  let collection_names := default [] (opt_collection_names o) in
  let '(tr, url) :=
    match url with
    | VStr u => ([], u)
    | _ => createUrl username password host port (VStr name)
    end in
  (tr, {| name := name; url := url; collection_names := collection_names;
          db := None; collections := ∅ |}).

End Construction.

(** Every key of the registry is the name of the collection that its
    wrapper holds. *)
Definition registry_ok (this : t) : Prop :=
  ∀ n w, collections this !! n = Some w → collectionName w = n.

End Database.

(** ** A reference implementation of [Bson]

    On strings and identifiers, after the documented behaviour of the
    driver: it accepts a string of 24 hexadecimal digits or of 12
    characters, returns an ObjectID it is given, and throws on any other
    string.  The other values are left out of this reference (it rejects
    them); no concrete input below holds one. *)
Definition is_hex (c : ascii) : bool :=
  let n := nat_of_ascii c in
  ((48 <=? n)%nat && (n <=? 57)%nat) || ((65 <=? n)%nat && (n <=? 70)%nat)
  || ((97 <=? n)%nat && (n <=? 102)%nat).

Definition valid_id_string (s : string) : bool :=
  ((String.length s =? 24)%nat && forallb is_hex (list_ascii_of_string s))
  || (String.length s =? 12)%nat.

Definition hex_ObjectID_of (x : value) : option string :=
  match x with
  | VStr s => if valid_id_string s then Some s else None
  | VOid id => Some id
  | _ => None
  end.

Definition hex_bson : Bson := {| ObjectID_of := hex_ObjectID_of |}.

(** ** A reference implementation of [Stringify]

    On the values that a configuration holds: a string converts to
    itself, an integer to its decimal digits, and [undefined], [null]
    and the booleans to their names.  Arrays, objects and identifiers are
    left out of this reference; no concrete input below converts one. *)
Definition js_to_string (v : value) : string :=
  match v with
  | VUndef => "undefined"
  | VNull => "null"
  | VBool true => "true"
  | VBool false => "false"
  | VNum n => NilZero.string_of_int (Z.to_int n)
  | VStr s => s
  | VOid _ | VArr _ | VObj _ => "[object Object]"
  end.

Definition js_stringify : Stringify :=
  {| to_string := js_to_string; to_string_VStr := fun s => eq_refl |}.

(** ** A reference store

    An in-memory implementation of the driver's collection, after the
    documented behaviour of MongoDB, to run the methods on concrete
    inputs: a filter matches a document that has each of its fields with
    an equal value; [modifiedCount] counts the documents that an update or
    a replacement changed, so it is 0 when the new content equals the
    old; and every call rejects while the server is offline. *)

Fixpoint value_eqb (a b : value) : bool :=
  match a, b with
  | VUndef, VUndef | VNull, VNull => true
  | VBool x, VBool y => Bool.eqb x y
  | VNum x, VNum y => (x =? y)%Z
  | VStr x, VStr y | VOid x, VOid y => String.eqb x y
  | VArr l, VArr m =>
      (fix go (l m : list value) : bool :=
         match l, m with
         | [], [] => true
         | x :: l', y :: m' => value_eqb x y && go l' m'
         | _, _ => false
         end) l m
  | VObj k, VObj m =>
      (fix go (k m : list (string * value)) : bool :=
         match k, m with
         | [], [] => true
         | (kx, x) :: k', (ky, y) :: m' =>
             String.eqb kx ky && value_eqb x y && go k' m'
         | _, _ => false
         end) k m
  | _, _ => false
  end.

Module MemStore.

Record t := { online : bool; docs : list value }.

Definition offline : error := OperationFailure "server is offline".

Definition matches (filter doc : value) : bool :=
  match filter with
  | VObj kvs =>
      forallb (fun p => value_eqb (get doc (Name p.1)) p.2) kvs
  | _ => true
  end.

Definition match_count (filter : value) (st : t) : nat :=
  length (List.filter (matches filter) (docs st)).

(** Apply [change] to the first document that matches. *)
Fixpoint change_first (filter : value) (change : value → option value)
    (ds : list value) : option (value * list value) :=
  match ds with
  | [] => None
  | d :: ds' =>
      if matches filter d then
        Some (d, match change d with
                 | Some d' => d' :: ds'
                 | None => ds'
                 end)
      else
        '(old, ds'') ← change_first filter change ds';
        Some (old, d :: ds'')
  end.

Definition answer {A} (st : t) (r : t → result A * t) : result A * t :=
  if online st then r st else (Throw offline, st).

Definition deleteOne (filter : value) (st : t) : result DeleteResult * t :=
  answer st (fun st =>
    match change_first filter (fun _ => None) (docs st) with
    | Some (_, ds) =>
        (Ok {| deletedCount := 1 |}, {| online := true; docs := ds |})
    | None => (Ok {| deletedCount := 0 |}, st)
    end).

Definition findOne (filter options : value) (st : t) : result value * t :=
  answer st (fun st =>
    (Ok (List.hd VNull (List.filter (matches filter) (docs st))), st)).

(** A cursor remembers the query; [toArray] runs it, up to the limit of
    its options when there is one. *)
Definition find (filter options : value) (st : t) : result value * t :=
  answer st (fun st =>
    (Ok (VObj [("filter", filter); ("options", options)]), st)).

Definition limited (options : value) (ds : list value) : list value :=
  match get options (Name "limit") with
  | VNum n => if (0 <? n)%Z then take (Z.to_nat n) ds else ds
  | _ => ds
  end.

Definition toArray (cursor : value) (st : t) : result (list value) * t :=
  answer st (fun st =>
    (Ok (limited (get cursor (Name "options"))
           (List.filter (matches (get cursor (Name "filter"))) (docs st))),
     st)).

Definition countDocuments (filter options : value) (st : t)
  : result value * t :=
  answer st (fun st => (Ok (VNum (Z.of_nat (match_count filter st))), st)).

Definition insertOne (document options : value) (st : t)
  : result InsertResult * t :=
  answer st (fun st =>
    (Ok {| insertedCount := 1; insertedId := get document (Name "_id") |},
     {| online := true; docs := docs st ++ [document] |})).

(** The content [new] under the identifier of [old], when it brings
    none of its own. *)
Definition keep_id (old new : value) : value :=
  match new with
  | VObj kvs =>
      match Assoc.get "_id" kvs with
      | Some _ => new
      | None => VObj (("_id", get old (Name "_id")) :: kvs)
      end
  | _ => new
  end.

Definition unmatched (st : t) : result UpdateResult * t :=
  (Ok {| matchedCount := 0; modifiedCount := 0; upsertedCount := 0 |}, st).

(** The answer when [old] is to become [new], [ds] being the documents
    after the change: the identifier of a document cannot change. *)
Definition updated (st : t) (old new : value) (ds : list value)
  : result UpdateResult * t :=
  if value_eqb (get old (Name "_id")) (get new (Name "_id")) then
    (Ok {| matchedCount := 1;
           modifiedCount := if value_eqb old new then 0 else 1;
           upsertedCount := 0 |},
     {| online := true; docs := ds |})
  else (Throw (OperationFailure "the field _id is immutable"), st).

Definition replaceOne (filter document options : value) (st : t)
  : result UpdateResult * t :=
  answer st (fun st =>
    match change_first filter (fun d => Some (keep_id d document))
            (docs st) with
    | Some (old, ds) => updated st old (keep_id old document) ds
    | None => unmatched st
    end).

(** [{$set: {k: v, ...}}] *)
Definition apply_set (fields : list (string * value)) (d : value) : value :=
  fold_left (fun d p => set d (Name p.1) p.2) fields d.

Definition updateOne (filter update options : value) (st : t)
  : result UpdateResult * t :=
  answer st (fun st =>
    match get update (Name "$set") with
    | VObj fields =>
        match change_first filter (fun d => Some (apply_set fields d))
                (docs st) with
        | Some (old, ds) => updated st old (apply_set fields old) ds
        | None => unmatched st
        end
    | _ => (Throw (OperationFailure "the update needs atomic operators"),
            st)
    end).

Definition drop (st : t) : result value * t :=
  answer st (fun st => (Ok (VBool true), {| online := true; docs := [] |})).

Definition deleteMany (filter : value) (st : t) : result value * t :=
  answer st (fun st =>
    (Ok (VNum (Z.of_nat (match_count filter st))),
     {| online := true;
        docs := List.filter (fun d => negb (matches filter d)) (docs st) |})).

Definition native : NativeCollection t := {|
  coll_deleteOne := deleteOne;
  coll_findOne := findOne;
  coll_find := find;
  cursor_toArray := toArray;
  coll_countDocuments := countDocuments;
  coll_insertOne := insertOne;
  coll_replaceOne := replaceOne;
  coll_updateOne := updateOne;
  coll_drop := drop;
  coll_deleteMany := deleteMany
|}.

End MemStore.

(** A reference server for [Database]. *)
Module MemServer.

Record t := {
  reachable : bool;                   (* connect succeeds *)
  listable : bool;                    (* listCollections succeeds *)
  existing : list string;
  refused : list string               (* names it will not create *)
}.

Definition connect (c : t) : result unit * t :=
  if reachable c then (Ok tt, c)
  else (Throw (ConnectionFailure "connection refused"), c).

Definition isConnected (c : t) : result bool * t := (Ok (reachable c), c).

Definition listCollections (c : t) : result (list string) * t :=
  if listable c then (Ok (existing c), c)
  else (Throw (OperationFailure "not authorized to list collections"), c).

Definition has (l : list string) (name : string) : bool :=
  existsb (String.eqb name) l.

Definition createCollection (name : string) (c : t) : result unit * t :=
  if has (existing c) name || has (refused c) name then
    (Throw (OperationFailure "collection cannot be created"), c)
  else
    (Ok tt, {| reachable := reachable c; listable := listable c;
               existing := existing c ++ [name]; refused := refused c |}).

Definition client : MongoClient t := {|
  client_connect := connect;
  client_isConnected := isConnected;
  db_listCollections := listCollections;
  db_createCollection := createCollection
|}.

End MemServer.

(** ** Concrete inputs *)

Module Sample.

Definition hex1 : string := "5f1d7f3e9b1e8a0012345678".
Definition hex2 : string := "5f1d7f3e9b1e8a00123456ff".

(** One stored document, [{_id: ObjectID(hex1), a: 1}]. *)
Definition doc : value := VObj [("_id", VOid hex1); ("a", VNum 1)].

Definition store : MemStore.t :=
  {| MemStore.online := true; MemStore.docs := [doc] |}.

Definition offline_store : MemStore.t :=
  {| MemStore.online := false; MemStore.docs := [doc] |}.

(** [{a: 1, _id: hex1}] *)
Definition by_string : value := VObj [("a", VNum 1); ("_id", VStr hex1)].

(** [{_id: hex1}] *)
Definition by_id : value := VObj [("_id", VStr hex1)].

(** [{a: 1}] and [{$set: {a: 1}}] *)
Definition by_field : value := VObj [("a", VNum 1)].
Definition set_same_field : value := VObj [("$set", VObj [("a", VNum 1)])].

(** [{a: 1, _id: "zz"}] *)
Definition by_bad_string : value :=
  VObj [("a", VNum 1); ("_id", VStr "zz")].

(** [{_id: {$in: [hex1, hex2], $exists: true}, b: {_id: hex1}}] *)
Definition by_operators : value :=
  VObj [("_id", VObj [("$in", VArr [VStr hex1; VStr hex2]);
                      ("$exists", VBool true)]);
        ("b", VObj [("_id", VStr hex1)])].

(** [{_id: 7, a: 1}] *)
Definition by_number : value := VObj [("_id", VNum 7); ("a", VNum 1)].

(** A server that lists its collections but refuses to create
    [users]. *)
Definition server : MemServer.t :=
  {| MemServer.reachable := true; MemServer.listable := true;
     MemServer.existing := ["logs"]; MemServer.refused := ["users"] |}.

(** A server that refuses to list its collections. *)
Definition closed_server : MemServer.t :=
  {| MemServer.reachable := true; MemServer.listable := false;
     MemServer.existing := ["logs"]; MemServer.refused := [] |}.

Definition database : Database.t :=
  {| Database.name := "admin";
     Database.url := "mongodb://localhost:27017/admin";
     Database.collection_names := ["users"; "logs"; "carts"];
     Database.db := None;
     Database.collections := ∅ |}.

End Sample.

(** A server that accepts every creation; its state is the list of its
    collections. *)
Module OpenServer.

Definition createCollection (name : string) (c : list string)
  : result unit * list string :=
  (Ok tt, if existsb (String.eqb name) c then c else c ++ [name]).

Definition client : MongoClient (list string) := {|
  client_connect := fun c => (Ok tt, c);
  client_isConnected := fun c => (Ok true, c);
  db_listCollections := fun c => (Ok c, c);
  db_createCollection := createCollection
|}.

End OpenServer.

(** A server that refuses, in every state, to create the collections
    named in [refused], and accepts the others; its state is the list of
    its collections. *)
Module RefusingServer.

Definition createCollection (refused : list string) (name : string)
    (c : list string) : result unit * list string :=
  if existsb (String.eqb name) refused then
    (Throw (OperationFailure "not authorized to create the collection"), c)
  else (Ok tt, c ++ [name]).

Definition client (refused : list string) : MongoClient (list string) := {|
  client_connect := fun c => (Ok tt, c);
  client_isConnected := fun c => (Ok true, c);
  db_listCollections := fun c => (Ok c, c);
  db_createCollection := createCollection refused
|}.

End RefusingServer.

(** Further concrete inputs. *)
Module Edge.

(** [{_id: {$nin: [hex2], $in: [hex1, "zz", hex2], $exists: true}, a: 1}] *)
Definition half_valid : value :=
  VObj [("_id", VObj [("$nin", VArr [VStr Sample.hex2]);
                      ("$in", VArr [VStr Sample.hex1; VStr "zz";
                                    VStr Sample.hex2]);
                      ("$exists", VBool true)]);
        ("a", VNum 1)].

(** [{_id: hex1, $set: {_id: ObjectID(hex2)}}] *)
Definition set_identifier : value :=
  VObj [("_id", VStr Sample.hex1);
        ("$set", VObj [("_id", VOid Sample.hex2)])].

(** [{_id: {$eq: hex1}}] *)
Definition scalar_operator : value :=
  VObj [("_id", VObj [("$eq", VStr Sample.hex1)])].

(** The object of [Sample.database] once [initialize] has set its
    [db]. *)
Definition opened_database : Database.t :=
  Database.with_db (Some "admin") Sample.database.

(** The same object once [getCollections] has registered [logs]. *)
Definition listed_database : Database.t :=
  Database.with_collections
    (<["logs" := {| Database.collectionName := "logs" |}]> ∅)
    opened_database.

(** A server that cannot be reached. *)
Definition unreachable_server : MemServer.t :=
  {| MemServer.reachable := false; MemServer.listable := true;
     MemServer.existing := []; MemServer.refused := [] |}.

(** No option given, and the options of a connection with credentials. *)
Definition no_options : Database.options :=
  {| Database.opt_name := None; Database.opt_host := VUndef;
     Database.opt_port := VUndef; Database.opt_username := VUndef;
     Database.opt_password := VUndef; Database.opt_url := VUndef;
     Database.opt_collection_names := None |}.

Definition url_options : Database.options :=
  {| Database.opt_name := Some "shop"; Database.opt_host := VStr "db";
     Database.opt_port := VNum 1; Database.opt_username := VStr "u";
     Database.opt_password := VStr "p";
     Database.opt_url := VStr "mongodb://elsewhere:27018";
     Database.opt_collection_names := Some ["users"] |}.

End Edge.

(** * Properties *)

(** ** Objects and loops *)

Lemma get_set_eq k x kvs : Assoc.get k (Assoc.set k x kvs) = Some x.
Proof.
  induction kvs as [|[k' v] rest IH]; simpl.
  - by rewrite String.eqb_refl.
  - destruct (String.eqb k' k) eqn:E; simpl.
    + by rewrite String.eqb_refl.
    + by rewrite E.
Qed.

Lemma get_set_ne k k' x kvs :
  k ≠ k' → Assoc.get k' (Assoc.set k x kvs) = Assoc.get k' kvs.
Proof.
  intros Hne. induction kvs as [|[k0 v] rest IH]; simpl.
  - destruct (String.eqb_spec k k'); congruence.
  - destruct (String.eqb_spec k0 k) as [->|Hk]; simpl.
    + destruct (String.eqb_spec k k'); congruence.
    + destruct (String.eqb_spec k0 k'); congruence.
Qed.

Lemma set_same k x kvs : Assoc.get k kvs = Some x → Assoc.set k x kvs = kvs.
Proof.
  induction kvs as [|[k' v] rest IH]; simpl; [done|].
  destruct (String.eqb_spec k' k) as [->|Hk]; intros Hg.
  - congruence.
  - by rewrite IH.
Qed.

Lemma keys_set k x v kvs :
  Assoc.get k kvs = Some v → (Assoc.set k x kvs).*1 = kvs.*1.
Proof.
  induction kvs as [|[k' v'] rest IH]; simpl; [done|].
  destruct (String.eqb_spec k' k) as [->|Hk]; intros Hg; simpl.
  - done.
  - f_equal. by apply IH.
Qed.

Lemma get_Some_key k v kvs : Assoc.get k kvs = Some v → k ∈ kvs.*1.
Proof.
  induction kvs as [|[k' v'] rest IH]; simpl; [done|].
  destruct (String.eqb_spec k' k) as [->|Hk]; intros Hg.
  - left.
  - right. auto.
Qed.

Lemma get_None_key k kvs : k ∉ kvs.*1 → Assoc.get k kvs = None.
Proof.
  induction kvs as [|[k' v'] rest IH]; simpl; [done|].
  intros Hn. apply not_elem_of_cons in Hn as [Hne Hn].
  destruct (String.eqb_spec k' k); [congruence | auto].
Qed.

Lemma get_remove_eq k kvs : Assoc.get k (Assoc.remove k kvs) = None.
Proof.
  induction kvs as [|[k' v] rest IH]; simpl; [done|].
  destruct (String.eqb k' k) eqn:E; simpl; [done|]. by rewrite E.
Qed.

Lemma get_remove_ne k k' kvs :
  k ≠ k' → Assoc.get k' (Assoc.remove k kvs) = Assoc.get k' kvs.
Proof.
  intros Hne. induction kvs as [|[k0 v] rest IH]; simpl; [done|].
  destruct (String.eqb_spec k0 k) as [->|Hk]; simpl.
  - destruct (String.eqb_spec k k'); congruence.
  - by rewrite IH.
Qed.

(** In the middle of an object whose keys are distinct. *)
Lemma get_middle seen k v todo :
  k ∉ seen.*1 → Assoc.get k (seen ++ (k, v) :: todo) = Some v.
Proof.
  induction seen as [|[k' v'] rest IH]; simpl; intros Hn.
  - by rewrite String.eqb_refl.
  - apply not_elem_of_cons in Hn as [Hne Hn].
    destruct (String.eqb_spec k' k); [congruence | auto].
Qed.

Lemma set_middle seen k v x todo :
  k ∉ seen.*1 →
  Assoc.set k x (seen ++ (k, v) :: todo) = seen ++ (k, x) :: todo.
Proof.
  induction seen as [|[k' v'] rest IH]; simpl; intros Hn.
  - by rewrite String.eqb_refl.
  - apply not_elem_of_cons in Hn as [Hne Hn].
    destruct (String.eqb_spec k' k); [congruence | by rewrite IH].
Qed.

Lemma key_eqb_spec a b : reflect (a = b) (key_eqb a b).
Proof.
  destruct a as [s|i], b as [t|j]; simpl; try (constructor; congruence).
  - destruct (String.eqb_spec s t); constructor; congruence.
  - destruct (Nat.eqb_spec i j); constructor; congruence.
Qed.

Section Loops.
Context {K St : Type}.
Implicit Types (ks : list K) (body : K → St → St * result unit).

(** A loop whose every turn leaves the state as it is. *)
Lemma for_loop_skip ks body st :
  (∀ k, k ∈ ks → body k st = (st, Ok tt)) →
  for_loop ks body st = (st, Ok tt).
Proof.
  induction ks as [|k ks IH]; simpl; intros Hb; [done|].
  rewrite Hb by left. apply IH. intros k' Hk'. apply Hb. by right.
Qed.

(** The first turn to act throws, and no turn before it acts. *)
Lemma for_loop_throw ks body st k0 e :
  k0 ∈ ks →
  body k0 st = (st, Throw e) →
  (∀ k, k ∈ ks → body k st = (st, Ok tt) ∨ body k st = (st, Throw e)) →
  for_loop ks body st = (st, Throw e).
Proof.
  intros Hin Hk0. induction ks as [|k ks IH]; simpl; intros Hb.
  - by apply elem_of_nil in Hin.
  - destruct (Hb k) as [E|E]; [left | | ]; rewrite E; [|done].
    apply elem_of_cons in Hin as [<-|Hin]; [congruence|].
    apply IH; [done|]. intros k' Hk'. apply Hb. by right.
Qed.

(** Only the turn of [k0] acts, and [k0] comes once. *)
Lemma for_loop_once ks body st k0 :
  NoDup ks → k0 ∈ ks →
  (∀ k s, k ≠ k0 → body k s = (s, Ok tt)) →
  for_loop ks body st = body k0 st.
Proof.
  intros Hnd Hin Hb. induction ks as [|k ks IH]; simpl.
  - by apply elem_of_nil in Hin.
  - apply NoDup_cons in Hnd as [Hk Hnd].
    apply elem_of_cons in Hin as [<-|Hin].
    + destruct (body k0 st) as [st' [[]|e]] eqn:E; [|done].
      apply for_loop_skip. intros k' Hk'. apply Hb. by intros ->.
    + rewrite Hb by (by intros ->). auto.
Qed.

(** A property of the state that every turn keeps. *)
Lemma for_loop_inv (P : St → Prop) ks body st :
  P st → (∀ k s, k ∈ ks → P s → P (body k s).1) →
  P (for_loop ks body st).1.
Proof.
  revert st. induction ks as [|k ks IH]; simpl; intros st HP Hb; [done|].
  pose proof (Hb k st (list_elem_of_here _ _) HP) as Hs.
  destruct (body k st) as [st' [[]|e]]; simpl in *; [|done].
  apply IH; [done|]. intros k' s Hk'. apply Hb. by right.
Qed.
End Loops.

(** ** Reading and writing a property *)

Lemma get_name_Some v k x :
  get v (Name k) = x → x ≠ VUndef →
  ∃ kvs, v = VObj kvs ∧ Assoc.get k kvs = Some x.
Proof.
  destruct v; simpl; try congruence.
  intros Hg Hx. exists props. split; [done|].
  destruct (Assoc.get k props); simpl in *; congruence.
Qed.

Lemma set_name_other v n x k :
  k ≠ Name n → get (set v (Name n) x) k = get v k.
Proof.
  intros Hne. destruct v; simpl; try done.
  destruct k as [k|i]; [|done].
  rewrite get_set_ne; [done|congruence].
Qed.

Lemma set_name_same v n :
  get v (Name n) ≠ VUndef → set v (Name n) (get v (Name n)) = v.
Proof.
  intros Hx. destruct (get_name_Some v n _ eq_refl Hx) as (kvs & -> & Hg).
  simpl. rewrite Hg. simpl. by rewrite set_same.
Qed.

Lemma get_set_name v n x :
  get v (Name n) ≠ VUndef → get (set v (Name n) x) (Name n) = x.
Proof.
  intros Hx. destruct (get_name_Some v n _ eq_refl Hx) as (kvs & -> & Hg).
  simpl. by rewrite get_set_eq.
Qed.

Lemma enumerate_set_name v n x :
  get v (Name n) ≠ VUndef → enumerate (set v (Name n) x) = enumerate v.
Proof.
  intros Hx. destruct (get_name_Some v n _ eq_refl Hx) as (kvs & -> & Hg).
  simpl. by rewrite (keys_set _ _ _ _ Hg).
Qed.

Lemma name_enumerated v n :
  get v (Name n) ≠ VUndef → Name n ∈ enumerate v.
Proof.
  intros Hx. destruct (get_name_Some v n _ eq_refl Hx) as (kvs & -> & Hg).
  simpl. apply list_elem_of_fmap. exists n. split; [done|].
  by eapply get_Some_key.
Qed.

Lemma typeof_defined v :
  typeof v = TString ∨ typeof v = TObject → v ≠ VUndef.
Proof. intros [E|E] ->; discriminate. Qed.

(** ** processFilter *)

Section ProcessFilter.
Context `{Bson}.
Import Collection.

(** One turn of the loop of [processFilter]. *)
Local Abbreviation turn := (fun (k1 : key) (filter : value) =>
  if key_eqb k1 (Name "_id") then
    match typeof (get filter k1) with
    | TString =>
        match new_ObjectID (get filter k1) with
        | Ok oid => (set filter k1 oid, Ok tt)
        | Throw e => (filter, Throw e)
        end
    | TObject =>
        let '(id, r) := coerce_operators (get filter k1) in
        (set filter k1 id, r)
    | _ => (filter, Ok tt)
    end
  else (filter, Ok tt)).

Lemma turn_other k filter : k ≠ Name "_id" → turn k filter = (filter, Ok tt).
Proof. intros Hne. cbv beta. by destruct (key_eqb_spec k (Name "_id")). Qed.

Lemma turn_native k filter id :
  get filter (Name "_id") = VOid id → turn k filter = (filter, Ok tt).
Proof.
  intros Hg. cbv beta.
  destruct (key_eqb_spec k (Name "_id")) as [->|]; [|done].
  rewrite Hg. simpl. rewrite <- Hg at 1.
  rewrite set_name_same; [done|]. by rewrite Hg.
Qed.

(** An identifier already in native form: nothing to do. *)
Lemma processFilter_native filter id :
  get filter (Name "_id") = VOid id → processFilter filter = (filter, Ok tt).
Proof.
  intros Hg. unfold processFilter. apply for_loop_skip.
  intros k _. by eapply turn_native.
Qed.

(** A string that the constructor accepts is replaced by its native
    form. *)
Lemma processFilter_string filter s id :
  get filter (Name "_id") = VStr s → ObjectID_of (VStr s) = Some id →
  processFilter filter = (set filter (Name "_id") (VOid id), Ok tt).
Proof.
  intros Hg Hid. unfold processFilter.
  assert (Hin : Name "_id" ∈ enumerate filter).
  { apply name_enumerated. by rewrite Hg. }
  revert Hin. generalize (enumerate filter) as ks.
  induction ks as [|k ks IH]; intros Hin.
  - by apply elem_of_nil in Hin.
  - cbn [for_loop]. cbv beta.
    destruct (key_eqb_spec k (Name "_id")) as [->|Hne].
    + rewrite Hg. cbn [typeof]. unfold new_ObjectID. rewrite Hid.
      apply for_loop_skip. intros k' _.
      apply (turn_native k' _ id). apply get_set_name. by rewrite Hg.
    + apply IH. apply elem_of_cons in Hin as [Heq|Hin]; [by subst|done].
Qed.

(** A string that the constructor rejects: the error goes up, and the
    filter is as it was. *)
Lemma processFilter_invalid filter s :
  get filter (Name "_id") = VStr s → ObjectID_of (VStr s) = None →
  processFilter filter
  = (filter, Throw (InvalidIdentifierFormat (VStr s))).
Proof.
  intros Hg Hid. unfold processFilter.
  assert (Ht : turn (Name "_id") filter
               = (filter, Throw (InvalidIdentifierFormat (VStr s)))).
  { cbv beta. cbn [key_eqb]. rewrite String.eqb_refl, Hg. cbn [typeof].
    unfold new_ObjectID. by rewrite Hid. }
  apply (for_loop_throw _ _ _ (Name "_id")).
  - apply name_enumerated. by rewrite Hg.
  - exact Ht.
  - intros k _. destruct (key_eqb_spec k (Name "_id")) as [->|Hne].
    + right. exact Ht.
    + by left.
Qed.

(** The turns leave every other property, and the set of keys, as they
    are, whether the method returns or throws. *)
Lemma processFilter_frame filter :
  enumerate (processFilter filter).1 = enumerate filter
  ∧ ∀ k, k ≠ Name "_id" → get (processFilter filter).1 k = get filter k.
Proof.
  unfold processFilter.
  apply (for_loop_inv (fun s => enumerate s = enumerate filter
           ∧ ∀ k, k ≠ Name "_id" → get s k = get filter k)); [done|].
  intros k s _ [He Hg]. cbv beta.
  destruct (key_eqb_spec k (Name "_id")) as [->|Hne]; [|done].
  destruct (typeof (get s (Name "_id"))) eqn:Ety; try done.
  - destruct (coerce_operators (get s (Name "_id"))) as [id r]. simpl.
    split.
    + rewrite enumerate_set_name; [done|].
      apply typeof_defined. by right.
    + intros k Hk. by rewrite set_name_other, Hg.
  - destruct (new_ObjectID (get s (Name "_id"))) as [oid|e]; simpl; [|done].
    split.
    + rewrite enumerate_set_name; [done|].
      apply typeof_defined. by left.
    + intros k Hk. by rewrite set_name_other, Hg.
Qed.

(** The loop over a sequence, from index [length seen] on. *)
Lemma coerce_elements_from seen todo :
  Forall (fun x => is_Some (ObjectID_of x)) todo →
  for_loop (seq (length seen) (length todo))
    (fun i arr =>
       match new_ObjectID (get arr (Index i)) with
       | Ok oid => (set arr (Index i) oid, Ok tt)
       | Throw e => (arr, Throw e)
       end) (VArr (seen ++ todo))
  = (VArr (seen ++ (native_form <$> todo)), Ok tt).
Proof.
  revert seen. induction todo as [|x todo IH]; intros seen Hv; [done|].
  apply Forall_cons in Hv as [[id Hid] Hv].
  cbn [length seq for_loop get].
  rewrite list_lookup_middle by done. cbn [default from_option Datatypes.id].
  unfold new_ObjectID at 1. rewrite Hid. cbn [set].
  rewrite decide_True; [|rewrite length_app; simpl; lia].
  rewrite insert_app_r_alt by lia.
  replace (length seen - length seen) with 0 by lia. cbn [insert list_insert].
  specialize (IH (seen ++ [VOid id]) Hv).
  rewrite length_app in IH. cbn [length] in IH.
  replace (length seen + 1) with (S (length seen)) in IH by lia.
  rewrite <- !app_assoc in IH. cbn [app] in IH. rewrite IH.
  rewrite fmap_cons. unfold native_form at 2. by rewrite Hid.
Qed.

Lemma coerce_elements_valid l :
  Forall (fun x => is_Some (ObjectID_of x)) l →
  coerce_elements (VArr l) = (VArr (native_form <$> l), Ok tt).
Proof. intros Hv. exact (coerce_elements_from [] l Hv). Qed.

Lemma coerce_operators_from seen todo :
  NoDup (seen ++ todo).*1 → acceptable todo →
  for_loop (Name <$> todo.*1)
    (fun k2 id =>
       if isArray (get id k2) then
         let '(arr, r) := coerce_elements (get id k2) in
         (set id k2 arr, r)
       else (id, Ok tt)) (VObj (seen ++ todo))
  = (VObj (seen ++ (coerced_operator <$> todo)), Ok tt).
Proof.
  revert seen. induction todo as [|[k v] todo IH]; intros seen Hnd Hv; [done|].
  assert (Hk : k ∉ seen.*1).
  { rewrite fmap_app in Hnd. apply NoDup_app in Hnd as (_ & Hd & _).
    intros Hin. apply (Hd k Hin). left. }
  rewrite !fmap_cons. cbn [for_loop get fst].
  rewrite get_middle by done. cbn [default from_option Datatypes.id].
  assert (Hrest : acceptable todo).
  { intros k' l x Hin. apply (Hv k' l x). by right. }
  assert (Hstep : ∀ v', NoDup ((seen ++ [(k, v')]) ++ todo).*1).
  { intros v'. rewrite <- app_assoc. cbn [app].
    rewrite fmap_app, fmap_cons in *. exact Hnd. }
  assert (Hnext : ∀ v',
    for_loop (Name <$> todo.*1)
      (fun k2 id =>
         if isArray (get id k2) then
           let '(arr, r) := coerce_elements (get id k2) in
           (set id k2 arr, r)
         else (id, Ok tt)) (VObj (seen ++ (k, v') :: todo))
    = (VObj (seen ++ (k, v') :: (coerced_operator <$> todo)), Ok tt)).
  { intros v'. specialize (IH (seen ++ [(k, v')]) (Hstep v') Hrest).
    rewrite <- !app_assoc in IH. exact IH. }
  destruct v; cbn [isArray]; try apply Hnext.
  rewrite coerce_elements_valid.
  - cbn [set]. rewrite set_middle by done. apply Hnext.
  - apply Forall_forall. intros x Hx. apply (Hv k elems x); [left|done].
Qed.

Lemma coerce_operators_valid ops :
  NoDup ops.*1 → acceptable ops →
  coerce_operators (VObj ops) = (VObj (coerced_operator <$> ops), Ok tt).
Proof. intros Hnd Hv. exact (coerce_operators_from [] ops Hnd Hv). Qed.

(** An operator-object: the sequences of its operators are coerced,
    element by element. *)
Lemma processFilter_operators kvs ops :
  NoDup kvs.*1 → NoDup ops.*1 →
  Assoc.get "_id" kvs = Some (VObj ops) → acceptable ops →
  processFilter (VObj kvs)
  = (VObj (Assoc.set "_id" (VObj (coerced_operator <$> ops)) kvs), Ok tt).
Proof.
  intros Hnd Hnd' Hg Hv. unfold processFilter.
  rewrite (for_loop_once _ _ _ (Name "_id")).
  - cbv beta. cbn [key_eqb get]. rewrite String.eqb_refl, Hg.
    cbn [default from_option Datatypes.id typeof]. by rewrite coerce_operators_valid.
  - cbn [enumerate]. apply NoDup_fmap_2; [|done]. by intros ?? [=].
  - apply name_enumerated. simpl. by rewrite Hg.
  - intros k s Hne. by apply turn_other.
Qed.

End ProcessFilter.

(** ** sanitizeFilter *)

Section SanitizeFilter.
Import Collection.

Lemma height_elem x l : x ∈ l → height x ≤ list_max (List.map height l).
Proof.
  induction 1 as [x l|x y l _ IH]; simpl; lia.
Qed.

Lemma height_prop (p : string * value) kvs :
  p ∈ kvs → height p.2 ≤ list_max (List.map (fun p => height p.2) kvs).
Proof.
  induction 1 as [x l|x y l _ IH]; simpl; lia.
Qed.

Lemma list_max_mono {A} (f g : A → nat) l :
  Forall (fun x => f x ≤ g x) l →
  list_max (List.map f l) ≤ list_max (List.map g l).
Proof. induction 1; simpl; lia. Qed.

(** Stripping does not deepen a value. *)
Lemma height_strip v : height (strip v) ≤ height v.
Proof.
  induction v as [| | | | | |l IH|kvs IH] using value_ind'; simpl; try lia.
  - rewrite List.map_map. apply le_n_S. by apply list_max_mono.
  - apply le_n_S. induction IH as [|[k x] kvs Hx _ IHk]; simpl; [lia|].
    destruct (reserved k); simpl in *; lia.
Qed.

(** Stripping twice is stripping once. *)
Lemma strip_idem v : strip (strip v) = strip v.
Proof.
  induction v as [| | | | | |l IH|kvs IH] using value_ind'; simpl; try done.
  - f_equal. rewrite List.map_map. apply List.map_ext_Forall. exact IH.
  - f_equal. induction IH as [|[k x] kvs Hx _ IHk]; simpl; [done|].
    destruct (reserved k) eqn:E; simpl; [done|].
    rewrite E. simpl in *. by rewrite Hx, IHk.
Qed.

(** After stripping, no reserved key is left at any depth. *)
Lemma strip_clean v : no_reserved_key (strip v) = true.
Proof.
  induction v as [| | | | | |l IH|kvs IH] using value_ind'; simpl; try done.
  - induction IH as [|x l Hx _ IHl]; simpl; [done|]. by rewrite Hx.
  - induction IH as [|[k x] kvs Hx _ IHk]; simpl; [done|].
    destruct (reserved k) eqn:E; simpl; [done|].
    rewrite E. simpl in *. by rewrite Hx.
Qed.

Lemma strip_defined v : v ≠ VUndef → strip v ≠ VUndef.
Proof. by destruct v. Qed.

Lemma mapM_total {A B} (f : A → option B) (g : A → B) l :
  Forall (fun x => f x = Some (g x)) l → mapM f l = Some (g <$> l).
Proof.
  intros Hf. apply mapM_Some_2. induction Hf; constructor; auto.
Qed.

(** With fuel above the depth of the value, the method returns, and
    returns the stripped value. *)
Lemma sanitizeFilter_rec_strip fuel v :
  height v < fuel →
  sanitizeFilter_rec fuel v = Some (strip (default_arg (VObj []) v)).
Proof.
  revert v. induction fuel as [|n IH]; intros v Hh; [lia|].
  assert (Hvisit : ∀ elm, height elm < n →
    (r ← sanitizeFilter_rec n elm; Some (left_as elm r)) = Some (strip elm)).
  { intros elm He. rewrite IH by done. by destruct elm. }
  destruct v; try done.
  - (* an array: both loops run over its elements *)
    cbn [sanitizeFilter_rec default_arg]. simpl in Hh.
    rewrite (mapM_total _ strip).
    2:{ apply Forall_forall. intros x Hx. apply Hvisit.
        pose proof (height_elem x elems Hx). lia. }
    cbn [fmap option_fmap option_map mbind option_bind].
    rewrite (mapM_total _ strip).
    2:{ apply Forall_forall. intros y Hy.
        apply list_elem_of_fmap in Hy as (x & -> & Hx). apply Hvisit.
        pose proof (height_elem x elems Hx).
        pose proof (height_strip x). lia. }
    cbn [fmap option_fmap option_map mbind option_bind sanitize strip].
    do 2 f_equal. rewrite <- list_fmap_compose.
    apply list_fmap_ext. intros _ x _. apply strip_idem.
  - (* an object: the loop runs over its values *)
    cbn [sanitizeFilter_rec default_arg]. simpl in Hh.
    cbn [mbind option_bind].
    rewrite (mapM_total _ (fun p => (p.1, strip p.2))).
    2:{ apply Forall_forall. intros p Hp. rewrite Hvisit; [done|].
        pose proof (height_prop p props Hp). lia. }
    done.
Qed.

End SanitizeFilter.

(** ** The methods of Collection *)

Ltac run_method :=
  unfold settled, emitted, final, bind, catch, log, request, of_result,
    ret, throw;
  cbn [fst snd app].

Section CollectionMethods.
Context `{Bson} {S : Type} `{NativeCollection S}.
Import Collection.

Lemma processed_ok filter filter' (st : S) :
  processFilter filter = (filter', Ok tt) →
  processed filter st = (st, [], Ok filter').
Proof. intros E. unfold processed. by rewrite E. Qed.

Lemma processed_throw filter filter' e (st : S) :
  processFilter filter = (filter', Throw e) →
  processed filter st = (st, [], Throw e).
Proof. intros E. unfold processed. by rewrite E. Qed.

(** *** A call that the store rejects *)

Lemma deleteDocument_rejected filter filter' options st st' e :
  processFilter filter = (filter', Ok tt) →
  coll_deleteOne filter' st = (Throw e, st') →
  deleteDocument filter options st
  = (st', [Logged Debug (Text "Deleting document");
           Logged Verbose (Dump filter);
           Logged Verbose (Dump (default_arg (VObj []) options));
           Called (DeleteOne filter')], Throw e).
Proof.
  intros Hf Hc. unfold deleteDocument. run_method.
  rewrite (processed_ok _ _ _ Hf). by rewrite Hc.
Qed.

Lemma updateDocument_rejected filter filter' update update' options
    st st' e :
  delete_prop update "_id" = Ok update' →
  processFilter filter = (filter', Ok tt) →
  coll_updateOne filter' update' (default_arg (VObj []) options) st
  = (Throw e, st') →
  updateDocument filter update options st
  = (st', [Logged Debug (Text "Updating document");
           Logged Verbose (Dump filter);
           Logged Verbose (Dump update');
           Logged Verbose (Dump (default_arg (VObj []) options));
           Called (UpdateOne filter' update'
                     (default_arg (VObj []) options))], Throw e).
Proof.
  intros Hd Hf Hc. unfold updateDocument. run_method.
  rewrite Hd, (processed_ok _ _ _ Hf). by rewrite Hc.
Qed.

Lemma replaceDocument_rejected filter filter' document document' options
    st st' e :
  delete_prop document "_id" = Ok document' →
  processFilter filter = (filter', Ok tt) →
  coll_replaceOne filter' document' (default_arg (VObj []) options) st
  = (Throw e, st') →
  replaceDocument filter document options st
  = (st', [Logged Debug (Text "Replacing document");
           Logged Verbose (Dump filter);
           Logged Verbose (Dump document');
           Logged Verbose (Dump (default_arg (VObj []) options));
           Called (ReplaceOne filter' document'
                     (default_arg (VObj []) options))], Throw e).
Proof.
  intros Hd Hf Hc. unfold replaceDocument. run_method.
  rewrite Hd, (processed_ok _ _ _ Hf). by rewrite Hc.
Qed.

Lemma drop_rejected st st' e :
  coll_drop st = (Throw e, st') →
  drop st
  = (st', [Logged Debug (Text "Dropping collection");
           Called Drop;
           Logged Error (Text "Failed to drop collection");
           Logged Error (Failure e)], Ok VUndef).
Proof. intros Hc. unfold drop. run_method. by rewrite Hc. Qed.

Lemma wipe_rejected st st' e :
  coll_deleteMany (VObj []) st = (Throw e, st') →
  wipe st
  = (st', [Logged Debug (Text "Wiping collection");
           Called (DeleteMany (VObj []));
           Logged Error (Text "Failed to wipe collection");
           Logged Error (Failure e)], Ok VUndef).
Proof. intros Hc. unfold wipe. run_method. by rewrite Hc. Qed.

Lemma insertDocument_rejected document options st st' e :
  coll_insertOne document (default_arg (VObj []) options) st
  = (Throw e, st') →
  settled (insertDocument document options st) = Throw e.
Proof. intros Hc. unfold insertDocument. run_method. by rewrite Hc. Qed.

Lemma getDocument_rejected filter filter' options st st' e :
  processFilter filter = (filter', Ok tt) →
  coll_findOne filter' (default_arg (VObj []) options) st = (Throw e, st') →
  settled (getDocument filter options st) = Throw e.
Proof.
  intros Hf Hc. unfold getDocument. run_method.
  rewrite (processed_ok _ _ _ Hf). by rewrite Hc.
Qed.

Lemma getCount_rejected filter options st st' e :
  coll_countDocuments (default_arg (VObj []) filter)
    (default_arg (VObj []) options) st = (Throw e, st') →
  settled (getCount filter options st) = Throw e.
Proof. intros Hc. unfold getCount. run_method. by rewrite Hc. Qed.

(** *** A call that the store answers *)

Lemma deleteDocument_answered filter filter' options st st' r :
  processFilter filter = (filter', Ok tt) →
  coll_deleteOne filter' st = (Ok r, st') →
  settled (deleteDocument filter options st)
  = Ok (VBool (nonzero (deletedCount r))).
Proof.
  intros Hf Hc. unfold deleteDocument. run_method.
  rewrite (processed_ok _ _ _ Hf), Hc.
  by destruct (nonzero (deletedCount r)).
Qed.

Lemma updateDocument_answered filter filter' update update' options
    st st' r :
  delete_prop update "_id" = Ok update' →
  processFilter filter = (filter', Ok tt) →
  coll_updateOne filter' update' (default_arg (VObj []) options) st
  = (Ok r, st') →
  settled (updateDocument filter update options st)
  = Ok (VBool (nonzero (modifiedCount r))).
Proof.
  intros Hd Hf Hc. unfold updateDocument. run_method.
  rewrite Hd, (processed_ok _ _ _ Hf), Hc.
  by destruct (nonzero (modifiedCount r)).
Qed.

Lemma replaceDocument_answered filter filter' document document' options
    st st' r :
  delete_prop document "_id" = Ok document' →
  processFilter filter = (filter', Ok tt) →
  coll_replaceOne filter' document' (default_arg (VObj []) options) st
  = (Ok r, st') →
  settled (replaceDocument filter document options st)
  = Ok (VBool (nonzero (modifiedCount r))).
Proof.
  intros Hd Hf Hc. unfold replaceDocument. run_method.
  rewrite Hd, (processed_ok _ _ _ Hf), Hc.
  by destruct (nonzero (modifiedCount r)).
Qed.

(** *** What is submitted to the store *)

Lemma delete_prop_spec payload sent :
  delete_prop payload "_id" = Ok sent →
  get sent (Name "_id") = VUndef
  ∧ ∀ k, k ≠ Name "_id" → get sent k = get payload k.
Proof.
  destruct payload; cbn [delete_prop]; intros [= <-]; try done.
  cbn [get]. split.
  - by rewrite get_remove_eq.
  - intros [k|i] Hk; [|done]. rewrite get_remove_ne; [done|congruence].
Qed.

Lemma replaceDocument_calls filter filter' document sent options st :
  processFilter filter = (filter', Ok tt) →
  delete_prop document "_id" = Ok sent →
  calls_of (emitted (replaceDocument filter document options st))
  = [ReplaceOne filter' sent (default_arg (VObj []) options)].
Proof.
  intros Hf Hd. unfold replaceDocument. run_method.
  rewrite Hd, (processed_ok _ _ _ Hf).
  destruct (coll_replaceOne _ _ _ st) as [[r|e] st']; [|done].
  by destruct (nonzero (modifiedCount r)).
Qed.

Lemma updateDocument_calls filter filter' update sent options st :
  processFilter filter = (filter', Ok tt) →
  delete_prop update "_id" = Ok sent →
  calls_of (emitted (updateDocument filter update options st))
  = [UpdateOne filter' sent (default_arg (VObj []) options)].
Proof.
  intros Hf Hd. unfold updateDocument. run_method.
  rewrite Hd, (processed_ok _ _ _ Hf).
  destruct (coll_updateOne _ _ _ st) as [[r|e] st']; [|done].
  by destruct (nonzero (modifiedCount r)).
Qed.

Lemma deleteDocument_calls filter filter' options st :
  processFilter filter = (filter', Ok tt) →
  calls_of (emitted (deleteDocument filter options st))
  = [DeleteOne filter'].
Proof.
  intros Hf. unfold deleteDocument. run_method.
  rewrite (processed_ok _ _ _ Hf).
  destruct (coll_deleteOne _ st) as [[r|e] st']; [|done].
  by destruct (nonzero (deletedCount r)).
Qed.

Lemma getDocument_calls filter filter' options st :
  processFilter filter = (filter', Ok tt) →
  calls_of (emitted (getDocument filter options st))
  = [FindOne filter' (default_arg (VObj []) options)].
Proof.
  intros Hf. unfold getDocument. run_method.
  rewrite (processed_ok _ _ _ Hf).
  destruct (coll_findOne _ _ st) as [[r|e] st']; [|done].
  by destruct (truthy r).
Qed.

Lemma getDocuments_calls filter filter' options st :
  processFilter (default_arg (VObj []) filter) = (filter', Ok tt) →
  ∃ rest,
    calls_of (emitted (getDocuments filter options st))
    = Find filter' (default_arg (VObj [("limit", VNum 10)]) options)
      :: rest.
Proof.
  intros Hf. unfold getDocuments. run_method.
  rewrite (processed_ok _ _ _ Hf).
  destruct (coll_find _ _ st) as [[cursor|e] st']; [|by eexists].
  destruct (cursor_toArray cursor st') as [[r|e] st'']; by eexists.
Qed.

(** [getCount] hands its filter to the store as it received it. *)
Lemma getCount_calls filter options (st : S) :
  calls_of (emitted (getCount filter options st))
  = [CountDocuments (default_arg (VObj []) filter)
       (default_arg (VObj []) options)].
Proof.
  unfold getCount. run_method.
  by destruct (coll_countDocuments _ _ st) as [[r|e] st'].
Qed.

(** When the filter or the payload is refused, nothing is submitted. *)
Lemma replaceDocument_refused filter filter' document options st e :
  processFilter filter = (filter', Throw e) →
  calls_of (emitted (replaceDocument filter document options st)) = []
  ∧ ∃ e', settled (replaceDocument filter document options st) = Throw e'.
Proof.
  intros Hf. unfold replaceDocument. run_method.
  destruct (delete_prop document "_id") as [d|e0]; [|by eauto].
  rewrite (processed_throw _ _ _ _ Hf). by eauto.
Qed.

End CollectionMethods.

(** ** The methods of Database *)

Section DatabaseMethods.
Context {C : Type} `{MongoClient C}.
Import Database.

Local Abbreviation wrapper_of := (fun name : string =>
  {| collectionName := name |}).

Local Abbreviation registered := (fun (registry : gmap string wrapper)
    (names : list string) =>
  foldl (fun registry name => <[name := wrapper_of name]> registry)
    registry names).

(** What a creation that fails leaves in the trace. *)
Local Abbreviation creation_failure := (fun (name : string) (e : error) =>
  [Logged Debug (Text ("Creating " +:+ name +:+ " collection"));
   Called (CreateCollection name);
   Logged Error (Text ("Failed to create " +:+ name +:+ " collection"));
   Logged Error (Failure e)]).

(** *** Loops *)

Lemma calls_of_app tr1 tr2 :
  calls_of (tr1 ++ tr2) = calls_of tr1 ++ calls_of tr2.
Proof.
  induction tr1 as [|[lvl p|c] tr1 IH]; simpl; [done|done|by f_equal].
Qed.

(** A loop keeps what each of its turns keeps. *)
Lemma for_each_final_inv {St A} (P : St → Prop) (l : list A)
    (body : A → M St unit) st :
  P st → (∀ x s, P s → P (final (body x s))) →
  P (final (for_each l body st)).
Proof.
  intros HP Hb. revert st HP. induction l as [|x l IH]; intros st HP; [done|].
  cbn [for_each]. unfold bind.
  specialize (Hb x st HP). destruct (body x st) as [[st1 t1] [[]|e]];
    unfold final in *; cbn [fst snd] in *; [|done].
  specialize (IH st1 Hb). by destruct (for_each l body st1) as [[st2 t2] r2].
Qed.

(** A loop over states that satisfy [P], whose every turn resolves,
    keeps [P] and makes the one call [f x]. *)
Lemma for_each_under {St A} (P : St → Prop) (f : A → call) (l : list A)
    (body : A → M St unit) st :
  P st →
  (∀ x s, P s → settled (body x s) = Ok tt
                ∧ P (final (body x s))
                ∧ calls_of (emitted (body x s)) = [f x]) →
  settled (for_each l body st) = Ok tt
  ∧ P (final (for_each l body st))
  ∧ calls_of (emitted (for_each l body st)) = f <$> l.
Proof.
  intros HP Hb. revert st HP. induction l as [|x l IH]; intros st HP; [done|].
  cbn [for_each]. unfold bind.
  specialize (Hb x st HP). destruct (body x st) as [[st1 t1] r1].
  unfold settled, emitted, final in Hb. cbn [fst snd] in Hb.
  destruct Hb as (-> & HP1 & Ht1).
  specialize (IH st1 HP1). destruct (for_each l body st1) as [[st2 t2] r2].
  unfold settled, emitted, final in *. cbn [fst snd] in *.
  destruct IH as (-> & HP2 & Ht2).
  by rewrite calls_of_app, Ht1, Ht2.
Qed.

(** *** createCollection *)

(** With no [db], the method throws after its debug entry. *)
Lemma createCollection_unopened name c this :
  db this = None →
  createCollection name (c, this)
  = ((c, this),
     [Logged Debug (Text ("Creating " +:+ name +:+ " collection"))],
     Throw (null_db "createCollection")).
Proof.
  intros Hdb. unfold createCollection, read. run_method. by rewrite Hdb.
Qed.

(** A creation that the server rejects is logged, and the promise of
    [createCollection] still resolves. *)
Lemma createCollection_failed name c this e c' :
  is_Some (db this) →
  db_createCollection name c = (Throw e, c') →
  createCollection name (c, this)
  = ((c', this), creation_failure name e, Ok VUndef).
Proof.
  intros [d Hdb] Hc. unfold createCollection, read, ask, write. run_method.
  rewrite Hdb. cbn [fst snd]. by rewrite Hc.
Qed.

Lemma createCollection_created name c this c' :
  is_Some (db this) →
  db_createCollection name c = (Ok tt, c') →
  createCollection name (c, this)
  = ((c', with_collections
            (<[name := wrapper_of name]> (collections this)) this),
     [Logged Debug (Text ("Creating " +:+ name +:+ " collection"));
      Called (CreateCollection name);
      Logged Info (Text ("Created " +:+ name +:+ " collection"))],
     Ok VUndef).
Proof.
  intros [d Hdb] Hc. unfold createCollection, read, ask, write. run_method.
  rewrite Hdb. cbn [fst snd]. by rewrite Hc.
Qed.

(** One turn of the loop of [createCollections], on an object whose
    [db] is set. *)
Lemma creation_turn name st :
  is_Some (db st.2) →
  settled ((createCollection name ;;; ret tt) st) = Ok tt
  ∧ is_Some (db (final ((createCollection name ;;; ret tt) st)).2)
  ∧ calls_of (emitted ((createCollection name ;;; ret tt) st))
    = [CreateCollection name].
Proof.
  destruct st as [c this]. cbn [snd]. intros Hdb. unfold bind.
  destruct (db_createCollection name c) as [[[]|e] c'] eqn:E.
  - by rewrite (createCollection_created _ _ _ _ Hdb E).
  - by rewrite (createCollection_failed _ _ _ _ _ Hdb E).
Qed.

(** [createCollections] is its loop over the missing names. *)
Lemma createCollections_loop requested st :
  createCollections requested st
  = for_each (missing_of (collections st.2) requested)
      (fun name => createCollection name ;;; ret tt) st.
Proof.
  unfold createCollections, read. unfold bind at 1. cbn [fst snd].
  by destruct (for_each _ _ st) as [[st1 t1] r1].
Qed.

Lemma createCollections_opened requested st :
  is_Some (db st.2) →
  settled (createCollections requested st) = Ok tt
  ∧ is_Some (db (final (createCollections requested st)).2)
  ∧ calls_of (emitted (createCollections requested st))
    = CreateCollection <$> missing_of (collections st.2) requested.
Proof.
  intros Hdb. rewrite createCollections_loop.
  exact (for_each_under (fun s : C * t => is_Some (db s.2))
    CreateCollection (missing_of (collections st.2) requested)
    (fun name => createCollection name ;;; ret tt) st Hdb creation_turn).
Qed.

(** *** getCollections *)

(** With no [db], the promise rejects after the debug entry. *)
Lemma getCollections_unopened c this :
  db this = None →
  getCollections (c, this)
  = ((c, this),
     [Logged Debug (Text "Getting database collections")],
     Throw (null_db "listCollections")).
Proof.
  intros Hdb. unfold getCollections, read. run_method. by rewrite Hdb.
Qed.

(** A discovery that the server rejects is logged, and the promise of
    [getCollections] rejects with the error of the server. *)
Lemma getCollections_failed c this e c' :
  is_Some (db this) →
  db_listCollections c = (Throw e, c') →
  getCollections (c, this)
  = ((c', this),
     [Logged Debug (Text "Getting database collections");
      Called ListCollections;
      Logged Error (Text "Failed to get database collections")],
     Throw e).
Proof.
  intros [d Hdb] Hc. unfold getCollections, read, outcome, ask. run_method.
  rewrite Hdb. cbn [fst snd]. by rewrite Hc.
Qed.

Lemma registered_lookup (registry : gmap string wrapper) names n :
  registered registry names !! n
  = if decide (n ∈ names) then Some (wrapper_of n) else registry !! n.
Proof.
  revert registry. induction names as [|x names IH]; intros registry.
  - cbn [foldl]. rewrite decide_False; [done|]. apply not_elem_of_nil.
  - cbn [foldl]. rewrite IH.
    destruct (decide (n ∈ names)) as [Hin|Hnin].
    + rewrite decide_True; [done|]. by right.
    + destruct (decide (n = x)) as [->|Hne].
      * rewrite decide_True by left. by rewrite lookup_insert_eq.
      * rewrite decide_False.
        { by rewrite lookup_insert_ne. }
        intros Hin. apply elem_of_cons in Hin as [?|?]; done.
Qed.

Lemma with_collections_same this :
  with_collections (collections this) this = this.
Proof. by destruct this. Qed.

(** The loop over the listed names: what it leaves, and that it makes
    no call. *)
Lemma for_each_found items (st : C * t) :
  let found :=
    for_each items
      (fun name =>
         write (fun this =>
                  with_collections
                    (<[name := wrapper_of name]> (collections this)) this) ;;;
         log Debug (Text ("Found collection " +:+ name))) st in
  final found
  = (st.1, with_collections (registered (collections st.2) items) st.2)
  ∧ settled found = Ok tt
  ∧ calls_of (emitted found) = [].
Proof.
  revert st. induction items as [|x items IH]; intros [c this].
  - cbn [for_each foldl]. unfold ret, final. cbn [fst snd].
    by rewrite with_collections_same.
  - cbn [for_each]. unfold write. run_method.
    specialize (IH (c, with_collections
                         (<[x := wrapper_of x]> (collections this)) this)).
    unfold final, settled, emitted in IH. cbn [fst snd] in IH.
    destruct (for_each items _ _) as [[st2 t2] r2].
    cbn [fst snd] in *. destruct IH as (-> & -> & Ht). done.
Qed.

(** A discovery that goes through: a wrapper is registered under each
    listed name. *)
Lemma getCollections_listed c this items c' :
  is_Some (db this) →
  db_listCollections c = (Ok items, c') →
  final (getCollections (c, this))
  = (c', with_collections (registered (collections this) items) this)
  ∧ settled (getCollections (c, this)) = Ok tt
  ∧ calls_of (emitted (getCollections (c, this))) = [ListCollections].
Proof.
  intros [d Hdb] Hc. unfold getCollections, read, outcome, ask. run_method.
  rewrite Hdb. cbn [fst snd]. rewrite Hc. cbn [fst snd].
  destruct items as [|x items].
  - cbn [length Nat.eqb foldl]. by rewrite with_collections_same.
  - cbn [length Nat.eqb].
    match goal with
    | |- context [for_each ?l ?body ?st] =>
        pose proof (for_each_found l st
                    : final (for_each l body st) = _
                      ∧ settled (for_each l body st) = _
                      ∧ calls_of (emitted (for_each l body st)) = _) as Hf;
        destruct (for_each l body st) as [[st2 t2] r2]
    end.
    unfold final, settled, emitted in Hf. cbn [fst snd] in *.
    destruct Hf as (-> & -> & Ht). cbn [calls_of app]. by rewrite Ht.
Qed.

(** *** The names that are missing *)

Lemma registered_key (registry : gmap string wrapper) name :
  existsb (fun key => String.eqb name key) (map_to_list registry).*1 = true
  ↔ is_Some (registry !! name).
Proof.
  rewrite existsb_exists. split.
  - intros (key & Hin & Heq). apply String.eqb_eq in Heq as <-.
    apply list_elem_of_In, list_elem_of_fmap in Hin as ([k w] & -> & Hin).
    apply elem_of_map_to_list in Hin. by eexists.
  - intros [w Hw]. exists name. split; [|apply String.eqb_refl].
    apply list_elem_of_In, list_elem_of_fmap. exists (name, w).
    split; [done|]. by apply elem_of_map_to_list.
Qed.

(** The missing names are the requested names without an entry in the
    registry, in the order and with the repetitions of the request. *)
Lemma missing_of_filter (registry : gmap string wrapper) requested :
  missing_of registry requested
  = filter (fun name => registry !! name = None) requested.
Proof.
  unfold missing_of. induction requested as [|x l IH]; [done|].
  cbn [List.filter]. rewrite filter_cons, IH.
  destruct (existsb _ _) eqn:E; cbn [negb].
  - apply registered_key in E as [w Hw]. rewrite decide_False; [done|].
    by rewrite Hw.
  - rewrite decide_True; [done|]. apply eq_None_not_Some.
    intros Hs. apply registered_key in Hs. congruence.
Qed.

Lemma missing_of_spec (registry : gmap string wrapper) requested name :
  name ∈ missing_of registry requested
  ↔ name ∈ requested ∧ registry !! name = None.
Proof. rewrite missing_of_filter, list_elem_of_filter. tauto. Qed.

(** *** initialize *)

(** Once connected, with the collections listed, [initialize] is
    [connect], then [getCollections] on the object with its [db] set,
    then [createCollections], and it resolves with [true]. *)
Lemma initialize_steps st st1 tr1 v items c2 :
  connect st = (st1, tr1, Ok v) →
  (final (connect st)).2 = st.2 →
  db_listCollections st1.1 = (Ok items, c2) →
  ∃ tG s3 tC,
    getCollections (st1.1, with_db (getDatabase (name st.2)) st.2)
    = ((c2, with_collections (registered (collections st.2) items)
              (with_db (getDatabase (name st.2)) st.2)), tG, Ok tt)
    ∧ createCollections (collection_names st.2)
        (c2, with_collections (registered (collections st.2) items)
               (with_db (getDatabase (name st.2)) st.2))
      = (s3, tC, Ok tt)
    ∧ initialize st = (s3, tr1 ++ tG ++ tC, Ok (VBool true)).
Proof.
  intros Hcon Hk Hl. rewrite Hcon in Hk. unfold final in Hk.
  destruct st1 as [c1 this1]. destruct st as [c0 [nm ur cn d0 cs]].
  cbn [fst snd] in Hk, Hl. subst this1.
  unfold initialize. unfold bind at 1. rewrite Hcon.
  unfold read, write. unfold bind at 1 2 3.
  cbn [fst snd name collections collection_names with_db with_collections
       getDatabase].
  match goal with
  | |- context [getCollections (c1, ?this')] =>
      assert (Hdb' : is_Some (db this')) by (by eexists);
      pose proof (getCollections_listed c1 this' items c2 Hdb' Hl) as Hg
  end.
  cbn [collections with_collections] in Hg.
  destruct (getCollections _) as [[s2 t2] r2].
  unfold final, settled in Hg. cbn [fst snd] in Hg.
  destruct Hg as (-> & -> & _).
  unfold bind at 1 2.
  cbn [fst snd name collections collection_names with_db with_collections].
  match goal with
  | |- context [createCollections cn (c2, ?this2)] =>
      assert (Hdb2 : is_Some (db (c2, this2).2)) by (by eexists);
      pose proof (proj1 (createCollections_opened cn (c2, this2) Hdb2)) as Hc
  end.
  destruct (createCollections cn _) as [[s3 t3] r3].
  unfold settled in Hc. cbn [fst snd] in Hc. subst r3.
  exists t2, s3, t3. split; [done|]. split; [done|].
  unfold ret. cbn [app]. by rewrite app_nil_r.
Qed.

Lemma connect_keeps_object st : (final (connect st)).2 = st.2.
Proof.
  destruct st as [c this]. unfold connect, read, ask. run_method.
  destruct (client_connect c) as [[[]|e] c1]; [|done]. cbn [fst snd].
  by destruct (client_isConnected c1) as [[[]|e] c2].
Qed.

Lemma initialize_discovered st st1 tr1 v items c2 :
  connect st = (st1, tr1, Ok v) →
  db_listCollections st1.1 = (Ok items, c2) →
  settled (initialize st) = Ok (VBool true).
Proof.
  intros Hcon Hl.
  destruct (initialize_steps _ _ _ _ _ _ Hcon (connect_keeps_object st) Hl)
    as (tG & s3 & tC & _ & _ & ->). done.
Qed.

Lemma initialize_discovery_failed st st1 tr1 v e c2 :
  connect st = (st1, tr1, Ok v) →
  db_listCollections st1.1 = (Throw e, c2) →
  initialize st
  = ((c2, with_db (getDatabase (name st1.2)) st1.2),
     tr1 ++ [Logged Debug (Text "Getting database collections");
             Called ListCollections;
             Logged Error (Text "Failed to get database collections")],
     Throw e).
Proof.
  intros Hcon Hl. unfold initialize. unfold bind at 1. rewrite Hcon.
  unfold read, write. unfold bind at 1 2 3. cbn [fst snd].
  destruct st1 as [c1 this1]. cbn [fst snd] in *.
  assert (Hdb : is_Some (db (with_db (getDatabase (name this1)) this1)))
    by (by eexists).
  by rewrite (getCollections_failed _ _ _ _ Hdb Hl).
Qed.

(** *** Creations that the server rejects *)

(** A requested name whose creation the server rejects leaves, in the
    trace of the loop, its debug entry, the call and the two error
    entries. *)
Lemma creations_log_failure (names : list string) (st : C * t) n e :
  is_Some (db st.2) → n ∈ names →
  (∀ c, ∃ c', db_createCollection n c = (Throw e, c')) →
  ∃ before after,
    emitted (for_each names (fun name => createCollection name ;;; ret tt) st)
    = before ++ creation_failure n e ++ after.
Proof.
  intros Hdb Hin Hrej. revert st Hdb.
  induction names as [|x names IH]; intros st Hdb.
  { by apply elem_of_nil in Hin. }
  cbn [for_each]. unfold bind at 1.
  destruct (decide (x = n)) as [->|Hne].
  - destruct st as [c this]. cbn [snd] in Hdb.
    destruct (Hrej c) as [c' Hc]. unfold bind at 1.
    rewrite (createCollection_failed _ _ _ _ _ Hdb Hc). unfold ret at 1.
    destruct (for_each names _ (c', this)) as [[st2 t2] r2].
    exists [], t2. unfold emitted. cbn [fst snd].
    by rewrite app_nil_r.
  - apply elem_of_cons in Hin as [?|Hin]; [done|].
    destruct (creation_turn x st Hdb) as (Hs & Hdb1 & _).
    destruct ((createCollection x ;;; ret tt) st) as [[st1 t1] r1].
    unfold settled, final in Hs, Hdb1. cbn [fst snd] in Hs, Hdb1. subst r1.
    destruct (IH Hin st1 Hdb1) as (before & after & Ht).
    destruct (for_each names _ st1) as [[st2 t2] r2].
    unfold emitted in *. cbn [fst snd] in *. subst t2.
    exists (t1 ++ before), after. by rewrite <- app_assoc.
Qed.

(** A name that has no entry, and whose creation the server rejects,
    has no entry after the loop. *)
Lemma creations_keep_unregistered (names : list string) (st : C * t) n e :
  is_Some (db st.2) → collections st.2 !! n = None →
  (∀ c, ∃ c', db_createCollection n c = (Throw e, c')) →
  collections
    (final (for_each names
              (fun name => createCollection name ;;; ret tt) st)).2 !! n
  = None.
Proof.
  intros Hdb Hn Hrej.
  apply (for_each_final_inv
           (fun s : C * t => is_Some (db s.2) ∧ collections s.2 !! n = None)
           names (fun name => createCollection name ;;; ret tt) st);
    [done|].
  intros x [c this] [Hdbs Hns]. cbn [snd] in *. unfold bind.
  destruct (db_createCollection x c) as [[[]|e'] c'] eqn:E.
  - rewrite (createCollection_created _ _ _ _ Hdbs E).
    unfold ret, final. cbn [fst snd collections with_collections db].
    split; [done|]. rewrite lookup_insert_ne; [done|].
    intros ->. destruct (Hrej c) as [c'' Hc]. congruence.
  - by rewrite (createCollection_failed _ _ _ _ _ Hdbs E).
Qed.

End DatabaseMethods.

(** ** The reference store *)

Section ReferenceStore.
Import MemStore.

Lemma change_first_unmatched filter change ds :
  List.filter (matches filter) ds = [] →
  change_first filter change ds = None.
Proof.
  induction ds as [|d ds IH]; simpl; [done|].
  destruct (matches filter d); [done|]. intros E. by rewrite IH.
Qed.

Lemma change_first_matched filter change ds :
  List.filter (matches filter) ds ≠ [] →
  ∃ old ds', change_first filter change ds = Some (old, ds').
Proof.
  induction ds as [|d ds IH]; simpl; [done|].
  destruct (matches filter d); [by eauto|].
  intros E. destruct (IH E) as (old & ds' & ->). simpl. by eauto.
Qed.

Lemma match_count_zero filter st :
  match_count filter st = 0 →
  List.filter (matches filter) (docs st) = [].
Proof. unfold match_count. by destruct (List.filter _ _). Qed.

(** A filter that matches nothing: nothing is deleted or modified. *)
Lemma unmatched_answers filter st :
  online st = true → match_count filter st = 0 →
  deleteOne filter st = (Ok {| deletedCount := 0 |}, st)
  ∧ (∀ document options, replaceOne filter document options st = unmatched st)
  ∧ (∀ update options fields,
       get update (Name "$set") = VObj fields →
       updateOne filter update options st = unmatched st).
Proof.
  intros Hon Hz. apply match_count_zero in Hz.
  unfold deleteOne, replaceOne, updateOne, answer. rewrite Hon.
  split; [|split].
  - by rewrite change_first_unmatched.
  - intros. by rewrite change_first_unmatched.
  - intros update options fields ->. by rewrite change_first_unmatched.
Qed.

(** A filter that matches a document: one document is deleted. *)
Lemma matched_delete_answers filter st :
  online st = true → 0 < match_count filter st →
  ∃ st', deleteOne filter st = (Ok {| deletedCount := 1 |}, st').
Proof.
  intros Hon Hp. unfold deleteOne, answer. rewrite Hon.
  destruct (change_first_matched filter (fun _ => None) (docs st))
    as (old & ds' & ->); [|by eauto].
  unfold match_count in Hp. destruct (List.filter _ _); simpl in *; [lia|done].
Qed.

End ReferenceStore.

(** * The claims of the specification *)

(** ** Identifier coercion *)

(** C5.  [processFilter] coerces only a direct top-level [_id] key.  A
    string value that the constructor accepts is replaced by its native
    identifier.  For an operator-object, the sequence of every
    array-valued operator is replaced by the sequence of the native forms
    of its elements, in the same order, and the other operators are left
    alone.  Every key other than [_id], hence every sub-filter nested
    under another field name, reads after the call as it read before,
    and the set of keys is the same; this holds whether the call returns
    or throws. *)
Theorem processFilter_coerces_top_level_id `{Bson} (filter : value) :
  (∀ s id,
      get filter (Name "_id") = VStr s → ObjectID_of (VStr s) = Some id →
      Collection.processFilter filter
      = (set filter (Name "_id") (VOid id), Ok tt))
  ∧ (∀ kvs ops,
      filter = VObj kvs → NoDup kvs.*1 → NoDup ops.*1 →
      Assoc.get "_id" kvs = Some (VObj ops) → Collection.acceptable ops →
      Collection.processFilter filter
      = (VObj (Assoc.set "_id"
                 (VObj (Collection.coerced_operator <$> ops)) kvs), Ok tt))
  ∧ (∀ k, k ≠ Name "_id" →
          get (Collection.processFilter filter).1 k = get filter k)
  ∧ enumerate (Collection.processFilter filter).1 = enumerate filter.
Proof.
  split; [|split; [|split]].
  - intros s id. apply processFilter_string.
  - intros kvs ops ->. apply processFilter_operators.
  - apply processFilter_frame.
  - apply processFilter_frame.
Qed.

Lemma processFilter_coerces_top_level_id_witness :
  @Collection.processFilter hex_bson Sample.by_string
  = (VObj [("a", VNum 1); ("_id", VOid Sample.hex1)], Ok tt)
  ∧ @Collection.processFilter hex_bson Sample.by_operators
    = (VObj [("_id", VObj [("$in", VArr [VOid Sample.hex1; VOid Sample.hex2]);
                           ("$exists", VBool true)]);
             ("b", VObj [("_id", VStr Sample.hex1)])], Ok tt)
  ∧ get (@Collection.processFilter hex_bson Sample.by_operators).1 (Name "b")
    = VObj [("_id", VStr Sample.hex1)].
Proof.
  split; [|split].
  - apply (proj1 (@processFilter_coerces_top_level_id hex_bson
                    Sample.by_string) Sample.hex1 Sample.hex1);
      reflexivity.
  - apply (proj1 (proj2 (@processFilter_coerces_top_level_id hex_bson
                           Sample.by_operators))
             [("_id", VObj [("$in", VArr [VStr Sample.hex1; VStr Sample.hex2]);
                            ("$exists", VBool true)]);
              ("b", VObj [("_id", VStr Sample.hex1)])]
             [("$in", VArr [VStr Sample.hex1; VStr Sample.hex2]);
              ("$exists", VBool true)]).
    + reflexivity.
    + compute_done.
    + compute_done.
    + reflexivity.
    + intros k l x Hin Hx.
      apply elem_of_cons in Hin as [[= -> ->]|Hin].
      * apply elem_of_cons in Hx as [->|Hx]; [by eexists|].
        apply elem_of_cons in Hx as [->|Hx]; [by eexists|].
        by apply elem_of_nil in Hx.
      * apply elem_of_cons in Hin as [[=]|Hin]. by apply elem_of_nil in Hin.
  - apply (proj1 (proj2 (proj2 (@processFilter_coerces_top_level_id hex_bson
                                  Sample.by_operators)))).
    discriminate.
Defined.

(** C8.  When the top-level [_id] of a filter is a string that is not a
    valid identifier encoding, [processFilter] throws
    [InvalidIdentifierFormat], and it leaves the filter as it was: no
    field is mutated. *)
Theorem processFilter_invalid_identifier `{Bson} (filter : value) (s : string) :
  get filter (Name "_id") = VStr s →
  ObjectID_of (VStr s) = None →
  Collection.processFilter filter
  = (filter, Throw (InvalidIdentifierFormat (VStr s)))
  ∧ ∀ k, get (Collection.processFilter filter).1 k = get filter k.
Proof.
  intros Hg Hid. rewrite (processFilter_invalid filter s Hg Hid). by split.
Qed.

Lemma processFilter_invalid_identifier_witness :
  @Collection.processFilter hex_bson Sample.by_bad_string
  = (Sample.by_bad_string, Throw (InvalidIdentifierFormat (VStr "zz")))
  ∧ ∀ k, get (@Collection.processFilter hex_bson Sample.by_bad_string).1 k
         = get Sample.by_bad_string k.
Proof.
  apply (@processFilter_invalid_identifier hex_bson Sample.by_bad_string "zz");
    reflexivity.
Defined.

(** C9.  When the top-level [_id] of a filter is a valid
    identifier-encoded string, [processFilter] returns, and the [_id]
    field is then the native identifier of that string.  Applying
    [processFilter] again to its result, or to any filter whose [_id] is
    already a native identifier, changes nothing. *)
Theorem processFilter_identifier_idempotent `{Bson} (filter : value) :
  (∀ s id,
      get filter (Name "_id") = VStr s → ObjectID_of (VStr s) = Some id →
      ∃ filter',
        Collection.processFilter filter = (filter', Ok tt)
        ∧ get filter' (Name "_id") = VOid id
        ∧ Collection.processFilter filter' = (filter', Ok tt))
  ∧ (∀ id,
      get filter (Name "_id") = VOid id →
      Collection.processFilter filter = (filter, Ok tt)).
Proof.
  split.
  - intros s id Hg Hid. exists (set filter (Name "_id") (VOid id)).
    assert (Hn : get (set filter (Name "_id") (VOid id)) (Name "_id")
                 = VOid id).
    { apply get_set_name. by rewrite Hg. }
    split; [by apply (processFilter_string filter s)|].
    split; [done|]. by apply (processFilter_native _ id).
  - intros id. apply processFilter_native.
Qed.

Lemma processFilter_identifier_idempotent_witness :
  (∃ filter',
      @Collection.processFilter hex_bson Sample.by_string = (filter', Ok tt)
      ∧ get filter' (Name "_id") = VOid Sample.hex1
      ∧ @Collection.processFilter hex_bson filter' = (filter', Ok tt))
  ∧ @Collection.processFilter hex_bson Sample.doc = (Sample.doc, Ok tt).
Proof.
  split.
  - apply (proj1 (@processFilter_identifier_idempotent hex_bson
                    Sample.by_string) Sample.hex1 Sample.hex1);
      reflexivity.
  - apply (proj2 (@processFilter_identifier_idempotent hex_bson Sample.doc)
             Sample.hex1).
    reflexivity.
Defined.

(** C10.  When the top-level [_id] of a filter is neither a string nor an
    object (a number, a boolean, or no [_id] at all), [processFilter]
    returns the filter unchanged: the value is not coerced and nothing
    is thrown. *)
Theorem processFilter_leaves_other_types `{Bson} (filter : value) :
  typeof (get filter (Name "_id")) ≠ TString →
  typeof (get filter (Name "_id")) ≠ TObject →
  Collection.processFilter filter = (filter, Ok tt).
Proof.
  intros Hs Ho. unfold Collection.processFilter. apply for_loop_skip.
  intros k _. destruct (key_eqb_spec k (Name "_id")) as [->|Hne]; [|done].
  by destruct (typeof (get filter (Name "_id"))).
Qed.

Lemma processFilter_leaves_other_types_witness :
  @Collection.processFilter hex_bson Sample.by_number
  = (Sample.by_number, Ok tt).
Proof.
  apply (@processFilter_leaves_other_types hex_bson Sample.by_number);
    discriminate.
Defined.

(** ** Sanitization *)

(** C6.  For every value, however deep its mappings and arrays nest,
    [sanitizeFilter] returns (with any fuel above the depth of the value
    it returns the same result), the result has no key that begins with
    the reserved prefix at any depth, and [sanitizeFilter] applied to
    the result returns the result itself.  The result is the input with
    the reserved keys dropped and every other property kept. *)
Theorem sanitizeFilter_strips_and_is_idempotent (filter : value) :
  ∃ clean,
    Collection.sanitizeFilter filter = Some clean
    ∧ (∀ extra,
         Collection.sanitizeFilter_rec (S (Collection.height filter) + extra)
           filter = Some clean)
    ∧ Collection.no_reserved_key clean = true
    ∧ Collection.sanitizeFilter clean = Some clean
    ∧ clean = Collection.strip (default_arg (VObj []) filter).
Proof.
  exists (Collection.strip (default_arg (VObj []) filter)).
  split; [|split; [|split; [|split]]].
  - apply sanitizeFilter_rec_strip. lia.
  - intros extra. apply sanitizeFilter_rec_strip. lia.
  - apply strip_clean.
  - unfold Collection.sanitizeFilter.
    rewrite sanitizeFilter_rec_strip by lia.
    f_equal. rewrite <- (strip_idem (default_arg (VObj []) filter)) at 2.
    f_equal. by destruct filter.
  - done.
Qed.

(** ** The document store *)

(** C1, as the code has it.  A failure of the remote store during
    [drop] or [wipe] is logged, in two entries at the error level, and
    is not propagated: the promise resolves, with [undefined].  A
    failure during [deleteDocument], [updateDocument] or
    [replaceDocument] is propagated to the caller as the thrown error,
    and no entry is logged for it; inserts, gets and counts propagate it
    in the same way. *)
Theorem store_failure_outcomes `{Bson} {S : Type} `{NativeCollection S}
    (st st' : S) (e : error) :
  (∀ filter filter' options,
      Collection.processFilter filter = (filter', Ok tt) →
      coll_deleteOne filter' st = (Throw e, st') →
      Collection.deleteDocument filter options st
      = (st', [Logged Debug (Text "Deleting document");
               Logged Verbose (Dump filter);
               Logged Verbose (Dump (default_arg (VObj []) options));
               Called (DeleteOne filter')], Throw e))
  ∧ (∀ filter filter' update update' options,
      delete_prop update "_id" = Ok update' →
      Collection.processFilter filter = (filter', Ok tt) →
      coll_updateOne filter' update' (default_arg (VObj []) options) st
      = (Throw e, st') →
      Collection.updateDocument filter update options st
      = (st', [Logged Debug (Text "Updating document");
               Logged Verbose (Dump filter);
               Logged Verbose (Dump update');
               Logged Verbose (Dump (default_arg (VObj []) options));
               Called (UpdateOne filter' update'
                         (default_arg (VObj []) options))], Throw e))
  ∧ (∀ filter filter' document document' options,
      delete_prop document "_id" = Ok document' →
      Collection.processFilter filter = (filter', Ok tt) →
      coll_replaceOne filter' document' (default_arg (VObj []) options) st
      = (Throw e, st') →
      Collection.replaceDocument filter document options st
      = (st', [Logged Debug (Text "Replacing document");
               Logged Verbose (Dump filter);
               Logged Verbose (Dump document');
               Logged Verbose (Dump (default_arg (VObj []) options));
               Called (ReplaceOne filter' document'
                         (default_arg (VObj []) options))], Throw e))
  ∧ (coll_drop st = (Throw e, st') →
      Collection.drop st
      = (st', [Logged Debug (Text "Dropping collection");
               Called Drop;
               Logged Error (Text "Failed to drop collection");
               Logged Error (Failure e)], Ok VUndef))
  ∧ (coll_deleteMany (VObj []) st = (Throw e, st') →
      Collection.wipe st
      = (st', [Logged Debug (Text "Wiping collection");
               Called (DeleteMany (VObj []));
               Logged Error (Text "Failed to wipe collection");
               Logged Error (Failure e)], Ok VUndef))
  ∧ (∀ document options,
      coll_insertOne document (default_arg (VObj []) options) st
      = (Throw e, st') →
      settled (Collection.insertDocument document options st) = Throw e)
  ∧ (∀ filter filter' options,
      Collection.processFilter filter = (filter', Ok tt) →
      coll_findOne filter' (default_arg (VObj []) options) st
      = (Throw e, st') →
      settled (Collection.getDocument filter options st) = Throw e)
  ∧ (∀ filter options,
      coll_countDocuments (default_arg (VObj []) filter)
        (default_arg (VObj []) options) st = (Throw e, st') →
      settled (Collection.getCount filter options st) = Throw e).
Proof.
  repeat split.
  - intros. by apply deleteDocument_rejected.
  - intros. by apply updateDocument_rejected.
  - intros. by apply replaceDocument_rejected.
  - apply drop_rejected.
  - apply wipe_rejected.
  - intros. by eapply insertDocument_rejected.
  - intros. by eapply getDocument_rejected.
  - intros. by eapply getCount_rejected.
Qed.

Lemma store_failure_outcomes_witness :
  @Collection.deleteDocument hex_bson _ MemStore.native
    Sample.by_field VUndef Sample.offline_store
  = (Sample.offline_store,
     [Logged Debug (Text "Deleting document");
      Logged Verbose (Dump Sample.by_field);
      Logged Verbose (Dump (VObj []));
      Called (DeleteOne Sample.by_field)], Throw MemStore.offline)
  ∧ @Collection.drop _ MemStore.native Sample.offline_store
    = (Sample.offline_store,
       [Logged Debug (Text "Dropping collection");
        Called Drop;
        Logged Error (Text "Failed to drop collection");
        Logged Error (Failure MemStore.offline)], Ok VUndef).
Proof.
  pose proof (@store_failure_outcomes hex_bson _ MemStore.native
                Sample.offline_store Sample.offline_store MemStore.offline)
    as (Hdelete & _ & _ & Hdrop & _).
  split.
  - apply (Hdelete Sample.by_field Sample.by_field VUndef); reflexivity.
  - apply Hdrop. reflexivity.
Defined.

(** C1, as the specification has it, fails: with the store offline,
    [deleteDocument] rejects with the error of the store, and [drop]
    resolves with [undefined]; neither returns [false]. *)
Lemma store_failure_is_not_false :
  settled (@Collection.deleteDocument hex_bson _ MemStore.native
             Sample.by_field VUndef Sample.offline_store)
  = Throw MemStore.offline
  ∧ settled (@Collection.drop _ MemStore.native Sample.offline_store)
    = Ok VUndef
  ∧ settled (@Collection.deleteDocument hex_bson _ MemStore.native
               Sample.by_field VUndef Sample.offline_store)
    ≠ Ok (VBool false)
  ∧ settled (@Collection.drop _ MemStore.native Sample.offline_store)
    ≠ Ok (VBool false).
Proof. repeat split; try reflexivity; discriminate. Qed.

(** C2 fails on [getCount].  For the filter [{_id: hex1}] and a store
    that holds the document with that identifier, [getCount] submits the
    filter with the identifier still a string, and counts nothing, while
    [getDocument] submits the coerced filter and finds the document. *)
Theorem getCount_submits_raw_identifier :
  calls_of (emitted (@Collection.getCount _ MemStore.native
                       Sample.by_id VUndef Sample.store))
  = [CountDocuments (VObj [("_id", VStr Sample.hex1)]) (VObj [])]
  ∧ settled (@Collection.getCount _ MemStore.native
               Sample.by_id VUndef Sample.store)
    = Ok (VNum 0)
  ∧ calls_of (emitted (@Collection.getDocument hex_bson _ MemStore.native
                         Sample.by_id VUndef Sample.store))
    = [FindOne (VObj [("_id", VOid Sample.hex1)]) (VObj [])]
  ∧ settled (@Collection.getDocument hex_bson _ MemStore.native
               Sample.by_id VUndef Sample.store)
    = Ok Sample.doc.
Proof. repeat split; reflexivity. Qed.

(** C7, as the code has it.  [replaceDocument] and [updateDocument]
    delete the [_id] field of the payload itself before they submit
    it, and nothing else: when the filter is accepted, the one call
    made on the store carries the payload without its own [_id], every
    other field as it was.  So an [_id] that the payload holds under
    another field, such as the operator [$set] of an update, is
    submitted as given: whether the primary key of a document can
    change is left to the store. *)
Theorem payload_submitted_without_id `{Bson} {S : Type} `{NativeCollection S}
    (filter filter' payload sent options : value) (st : S) :
  Collection.processFilter filter = (filter', Ok tt) →
  delete_prop payload "_id" = Ok sent →
  calls_of (emitted (Collection.replaceDocument filter payload options st))
  = [ReplaceOne filter' sent (default_arg (VObj []) options)]
  ∧ calls_of (emitted (Collection.updateDocument filter payload options st))
    = [UpdateOne filter' sent (default_arg (VObj []) options)]
  ∧ get sent (Name "_id") = VUndef
  ∧ (∀ k, k ≠ Name "_id" → get sent k = get payload k)
  ∧ ∀ op, op ≠ "_id" →
      get (get sent (Name op)) (Name "_id")
      = get (get payload (Name op)) (Name "_id").
Proof.
  intros Hf Hd. split; [|split].
  - by apply replaceDocument_calls.
  - by apply updateDocument_calls.
  - destruct (delete_prop_spec _ _ Hd) as [Hid Hrest].
    split; [exact Hid|]. split; [exact Hrest|].
    intros op Hop. rewrite Hrest; [done|]. by intros [= ->].
Qed.

Lemma payload_submitted_without_id_witness :
  calls_of (emitted (@Collection.replaceDocument hex_bson _ MemStore.native
                       Sample.by_id Sample.by_bad_string VUndef Sample.store))
  = [ReplaceOne (VObj [("_id", VOid Sample.hex1)]) (VObj [("a", VNum 1)])
       (VObj [])]
  ∧ calls_of (emitted (@Collection.updateDocument hex_bson _ MemStore.native
                         Sample.by_id Sample.by_bad_string VUndef
                         Sample.store))
    = [UpdateOne (VObj [("_id", VOid Sample.hex1)]) (VObj [("a", VNum 1)])
         (VObj [])]
  ∧ get (VObj [("a", VNum 1)]) (Name "_id") = VUndef
  ∧ (∀ k, k ≠ Name "_id" →
          get (VObj [("a", VNum 1)]) k = get Sample.by_bad_string k)
  ∧ ∀ op, op ≠ "_id" →
      get (get (VObj [("a", VNum 1)]) (Name op)) (Name "_id")
      = get (get Sample.by_bad_string (Name op)) (Name "_id").
Proof.
  apply (@payload_submitted_without_id hex_bson _ MemStore.native
           Sample.by_id (VObj [("_id", VOid Sample.hex1)])
           Sample.by_bad_string (VObj [("a", VNum 1)]) VUndef Sample.store);
    reflexivity.
Defined.

(** C7, as the specification has it, fails: the update
    [{_id: hex1, $set: {_id: ObjectID(hex2)}}] is submitted as
    [{$set: {_id: ObjectID(hex2)}}], an identifier field still in it,
    and asks the store to change the primary key of the document that
    [{a: 1}] selects.  It is the reference store, where [_id] is
    immutable, that refuses. *)
Lemma nested_identifier_is_submitted :
  calls_of (emitted (@Collection.updateDocument hex_bson _ MemStore.native
                       Sample.by_field Edge.set_identifier VUndef
                       Sample.store))
  = [UpdateOne Sample.by_field
       (VObj [("$set", VObj [("_id", VOid Sample.hex2)])]) (VObj [])]
  ∧ get (get (VObj [("$set", VObj [("_id", VOid Sample.hex2)])])
           (Name "$set")) (Name "_id")
    = VOid Sample.hex2
  ∧ settled (@Collection.updateDocument hex_bson _ MemStore.native
               Sample.by_field Edge.set_identifier VUndef Sample.store)
    = Throw (OperationFailure "the field _id is immutable").
Proof. repeat split; reflexivity. Qed.

(** C3, as the code has it.  When [processFilter] accepts the filter and
    the store answers, [deleteDocument] returns whether [deletedCount]
    is not zero, and [updateDocument] and [replaceDocument] return
    whether [modifiedCount] is not zero; none of them throws.  On the
    reference store, a filter that matches no document gives [false]
    for the three of them, and a filter that matches a document gives
    [true] for [deleteDocument]. *)
Theorem write_result_follows_counter `{Bson} {S : Type} `{NativeCollection S}
    (filter filter' options : value) :
  Collection.processFilter filter = (filter', Ok tt) →
  (∀ (st st' : S) r,
      coll_deleteOne filter' st = (Ok r, st') →
      settled (Collection.deleteDocument filter options st)
      = Ok (VBool (nonzero (deletedCount r))))
  ∧ (∀ (st st' : S) update update' r,
      delete_prop update "_id" = Ok update' →
      coll_updateOne filter' update' (default_arg (VObj []) options) st
      = (Ok r, st') →
      settled (Collection.updateDocument filter update options st)
      = Ok (VBool (nonzero (modifiedCount r))))
  ∧ (∀ (st st' : S) document document' r,
      delete_prop document "_id" = Ok document' →
      coll_replaceOne filter' document' (default_arg (VObj []) options) st
      = (Ok r, st') →
      settled (Collection.replaceDocument filter document options st)
      = Ok (VBool (nonzero (modifiedCount r))))
  ∧ (∀ st : MemStore.t,
      MemStore.online st = true → MemStore.match_count filter' st = 0 →
      settled (@Collection.deleteDocument _ _ MemStore.native
                 filter options st) = Ok (VBool false)
      ∧ (∀ document document',
           delete_prop document "_id" = Ok document' →
           settled (@Collection.replaceDocument _ _ MemStore.native
                      filter document options st) = Ok (VBool false))
      ∧ (∀ update update' fields,
           delete_prop update "_id" = Ok update' →
           get update' (Name "$set") = VObj fields →
           settled (@Collection.updateDocument _ _ MemStore.native
                      filter update options st) = Ok (VBool false)))
  ∧ (∀ st : MemStore.t,
      MemStore.online st = true → 0 < MemStore.match_count filter' st →
      settled (@Collection.deleteDocument _ _ MemStore.native
                 filter options st) = Ok (VBool true)).
Proof.
  intros Hf. split; [|split; [|split; [|split]]].
  - intros. by eapply deleteDocument_answered.
  - intros. by eapply updateDocument_answered.
  - intros. by eapply replaceDocument_answered.
  - intros st Hon Hz.
    destruct (unmatched_answers filter' st Hon Hz) as (Hd & Hr & Hu).
    split; [|split].
    + by rewrite (@deleteDocument_answered _ _ MemStore.native
                    _ _ options _ _ _ Hf Hd).
    + intros document document' Hdel.
      by rewrite (@replaceDocument_answered _ _ MemStore.native
                    _ _ _ _ options _ _ _ Hdel Hf (Hr _ _)).
    + intros update update' fields Hdel Hset.
      by rewrite (@updateDocument_answered _ _ MemStore.native
                    _ _ _ _ options _ _ _ Hdel Hf (Hu _ _ _ Hset)).
  - intros st Hon Hp.
    destruct (matched_delete_answers filter' st Hon Hp) as (st' & Hd).
    by rewrite (@deleteDocument_answered _ _ MemStore.native
                  _ _ options _ _ _ Hf Hd).
Qed.

Lemma write_result_follows_counter_witness :
  settled (@Collection.deleteDocument hex_bson _ MemStore.native
             Sample.by_id VUndef Sample.store) = Ok (VBool true)
  ∧ settled (@Collection.deleteDocument hex_bson _ MemStore.native
               Sample.by_id VUndef
               {| MemStore.online := true; MemStore.docs := [] |})
    = Ok (VBool false).
Proof.
  pose proof (@write_result_follows_counter hex_bson _ MemStore.native
                Sample.by_id (VObj [("_id", VOid Sample.hex1)]) VUndef
                eq_refl) as (_ & _ & _ & Hnone & Hsome).
  split.
  - apply Hsome; [reflexivity | vm_compute; lia].
  - apply Hnone; reflexivity.
Defined.

(** C3, as the specification has it, fails.  The filter [{a: 1}]
    matches exactly one stored document, and both an update and a
    replacement that leave that document as it is return [false]; the
    filter [{a: 1, _id: "zz"}] matches no document, and
    [deleteDocument] throws on it. *)
Lemma matched_but_unmodified_returns_false :
  MemStore.match_count Sample.by_field Sample.store = 1
  ∧ settled (@Collection.updateDocument hex_bson _ MemStore.native
               Sample.by_field Sample.set_same_field VUndef Sample.store)
    = Ok (VBool false)
  ∧ settled (@Collection.replaceDocument hex_bson _ MemStore.native
               Sample.by_field Sample.by_field VUndef Sample.store)
    = Ok (VBool false)
  ∧ MemStore.match_count Sample.by_bad_string Sample.store = 0
  ∧ settled (@Collection.deleteDocument hex_bson _ MemStore.native
               Sample.by_bad_string VUndef Sample.store)
    = Throw (InvalidIdentifierFormat (VStr "zz")).
Proof. repeat split; reflexivity. Qed.

(** ** The registry *)

(** C4, as the code has it.  Once the connection is made and the
    collections are listed, [initialize] resolves with [true] whatever
    becomes of the creations: after the listing it asks the server to
    create each requested name that is neither listed nor registered,
    in the order of the request, a rejection stopping none of the
    later ones.  For such a name that the server rejects, the trace of
    [initialize] holds the call and, after it, the two entries logged
    at the error level, and the name is left without an entry in the
    registry.  ([createCollection] by itself, on an object whose [db]
    is set, logs a rejected creation in the same way and resolves.)
    When the listing fails, the failure is logged and [initialize]
    rejects with it, before any collection is created. *)
Theorem initialize_best_effort_creation {C : Type} `{MongoClient C}
    (st st1 : C * Database.t) (tr1 : list event) (v : value) :
  Database.connect st = (st1, tr1, Ok v) →
  (∀ items c2,
      db_listCollections st1.1 = (Ok items, c2) →
      settled (Database.initialize st) = Ok (VBool true)
      ∧ calls_of (emitted (Database.initialize st))
        = calls_of tr1
          ++ ListCollections
             :: (CreateCollection
                   <$> filter (fun n =>
                                 (n ∉ items)
                                 ∧ Database.collections st.2 !! n = None)
                         (Database.collection_names st.2))
      ∧ ∀ n e,
          n ∈ Database.collection_names st.2 → n ∉ items →
          Database.collections st.2 !! n = None →
          (∀ c, ∃ c', db_createCollection n c = (Throw e, c')) →
          (∃ before after,
             emitted (Database.initialize st)
             = before
               ++ [Logged Debug (Text ("Creating " +:+ n +:+ " collection"));
                   Called (CreateCollection n);
                   Logged Error
                     (Text ("Failed to create " +:+ n +:+ " collection"));
                   Logged Error (Failure e)]
               ++ after)
          ∧ Database.collections (final (Database.initialize st)).2 !! n
            = None)
  ∧ (∀ name c this e c',
      is_Some (Database.db this) →
      db_createCollection name c = (Throw e, c') →
      Database.createCollection name (c, this)
      = ((c', this),
         [Logged Debug (Text ("Creating " +:+ name +:+ " collection"));
          Called (CreateCollection name);
          Logged Error (Text ("Failed to create " +:+ name +:+ " collection"));
          Logged Error (Failure e)],
         Ok VUndef))
  ∧ (∀ e c2,
      db_listCollections st1.1 = (Throw e, c2) →
      Database.initialize st
      = ((c2, Database.with_db (Database.getDatabase (Database.name st1.2))
                st1.2),
         tr1 ++ [Logged Debug (Text "Getting database collections");
                 Called ListCollections;
                 Logged Error (Text "Failed to get database collections")],
         Throw e)).
Proof.
  intros Hcon. split; [|split].
  - intros items c2 Hl.
    destruct (initialize_steps _ _ _ _ _ _ Hcon (connect_keeps_object st) Hl)
      as (tG & s3 & tC & HG & HC & Hi).
    set (this2 := Database.with_collections _ _) in HG, HC.
    assert (Hdb' : is_Some (Database.db
                     (Database.with_db
                        (Database.getDatabase (Database.name st.2)) st.2)))
      by (by eexists).
    assert (Hdb2 : is_Some (Database.db (c2, this2).2)) by (by eexists).
    pose proof (getCollections_listed _ _ _ _ Hdb' Hl) as (_ & _ & HcG).
    rewrite HG in HcG. unfold emitted in HcG. cbn [fst snd] in HcG.
    pose proof (createCollections_opened (Database.collection_names st.2)
                  (c2, this2) Hdb2) as (_ & _ & HcC).
    rewrite HC in HcC. unfold emitted in HcC. cbn [fst snd] in HcC.
    assert (Hreg : ∀ n, Database.collections this2 !! n = None
                        ↔ (n ∉ items)
                          ∧ Database.collections st.2 !! n = None).
    { intros n. unfold this2.
      cbn [Database.collections Database.with_collections Database.with_db].
      rewrite registered_lookup. destruct (decide (n ∈ items)); [|tauto].
      split; [done|]. by intros [? _]. }
    rewrite Hi. unfold settled, emitted, final. cbn [fst snd].
    split; [done|]. split.
    + rewrite !calls_of_app, HcG, HcC, missing_of_filter. cbn [app].
      do 3 f_equal. apply list_filter_iff. intros n. apply Hreg.
    + intros n e Hreq Hnin Hnone Hrej.
      assert (Hn2 : Database.collections (c2, this2).2 !! n = None).
      { apply Hreg. by split. }
      rewrite createCollections_loop in HC. split.
      * destruct (creations_log_failure
                    (Database.missing_of (Database.collections (c2, this2).2)
                       (Database.collection_names st.2))
                    (c2, this2) n e Hdb2) as (before & after & Ht); [|done|].
        { apply missing_of_spec. by split. }
        rewrite HC in Ht. unfold emitted in Ht. cbn [fst snd] in Ht.
        subst tC. exists (tr1 ++ tG ++ before), after.
        by rewrite <- !app_assoc.
      * pose proof (creations_keep_unregistered
                      (Database.missing_of
                         (Database.collections (c2, this2).2)
                         (Database.collection_names st.2))
                      (c2, this2) n e Hdb2 Hn2 Hrej) as Hf.
        rewrite HC in Hf. exact Hf.
  - intros name c this e c'. apply createCollection_failed.
  - intros e c2. by apply initialize_discovery_failed with (v := v).
Qed.

Lemma initialize_best_effort_creation_witness :
  settled (@Database.initialize _ (RefusingServer.client ["users"])
             (["logs"], Sample.database)) = Ok (VBool true)
  ∧ calls_of (emitted (@Database.initialize _ (RefusingServer.client ["users"])
                         (["logs"], Sample.database)))
    = [Connect; IsConnected; ListCollections;
       CreateCollection "users"; CreateCollection "carts"]
  ∧ Database.collections
      (final (@Database.initialize _ (RefusingServer.client ["users"])
                (["logs"], Sample.database))).2 !! "users" = None
  ∧ (∃ before after,
       emitted (@Database.initialize _ (RefusingServer.client ["users"])
                  (["logs"], Sample.database))
       = before
         ++ [Logged Debug (Text "Creating users collection");
             Called (CreateCollection "users");
             Logged Error (Text "Failed to create users collection");
             Logged Error
               (Failure
                  (OperationFailure
                     "not authorized to create the collection"))]
         ++ after)
  ∧ settled (@Database.initialize _ MemServer.client
               (Sample.closed_server, Sample.database))
    = Throw (OperationFailure "not authorized to list collections").
Proof.
  pose proof (@initialize_best_effort_creation _
                (RefusingServer.client ["users"])
                (["logs"], Sample.database) (["logs"], Sample.database)
                [Logged Debug
                   (Text "Connecting to mongodb://localhost:27017/admin");
                 Called Connect; Called IsConnected;
                 Logged Info
                   (Text "Connected to mongodb://localhost:27017/admin")]
                (VBool true) eq_refl) as (Hlisted & _ & _).
  destruct (Hlisted ["logs"] ["logs"] eq_refl) as (Hs & Hc & Hfail).
  destruct (Hfail "users"
              (OperationFailure "not authorized to create the collection"))
    as (Hlog & Hn).
  { compute_done. }
  { compute_done. }
  { apply lookup_empty. }
  { intros c. by eexists. }
  split; [exact Hs|]. split; [|split; [exact Hn|split; [exact Hlog|]]].
  - rewrite Hc. reflexivity.
  - rewrite (proj2 (proj2 (@initialize_best_effort_creation _ MemServer.client
                    (Sample.closed_server, Sample.database)
                    (Sample.closed_server, Sample.database)
                    [Logged Debug
                       (Text "Connecting to mongodb://localhost:27017/admin");
                     Called Connect; Called IsConnected;
                     Logged Info
                       (Text "Connected to mongodb://localhost:27017/admin")]
                    (VBool true) eq_refl))
               (OperationFailure "not authorized to list collections")
               Sample.closed_server eq_refl).
    reflexivity.
Defined.

(** C4, as the specification has it, fails: when the server refuses to
    list its collections, [initialize] rejects with that error, and no
    collection is created. *)
Lemma initialize_aborts_when_discovery_fails :
  settled (@Database.initialize _ MemServer.client
             (Sample.closed_server, Sample.database))
  = Throw (OperationFailure "not authorized to list collections")
  ∧ calls_of (emitted (@Database.initialize _ MemServer.client
                         (Sample.closed_server, Sample.database)))
    = [Connect; IsConnected; ListCollections].
Proof. split; reflexivity. Qed.

(** * Further properties of the code *)

(** ** processFilter: a sequence with an element that is refused *)

Section Loops2.
Context {K St : Type}.

Lemma for_loop_app (ks1 ks2 : list K) (body : K → St → St * result unit) st :
  for_loop (ks1 ++ ks2) body st
  = match for_loop ks1 body st with
    | (st', Ok _) => for_loop ks2 body st'
    | (st', Throw e) => (st', Throw e)
    end.
Proof.
  revert st. induction ks1 as [|k ks1 IH]; intros st; [done|].
  cbn [app for_loop]. destruct (body k st) as [st' [[]|e]]; [apply IH|done].
Qed.
End Loops2.

Section PartialCoercion.
Context `{Bson}.
Import Collection.

Local Abbreviation accepted := (fun x : value => is_Some (ObjectID_of x)).

Local Abbreviation element_turn := (fun (i : nat) (arr : value) =>
  match new_ObjectID (get arr (Index i)) with
  | Ok oid => (set arr (Index i) oid, Ok tt)
  | Throw e => (arr, Throw e)
  end).

Local Abbreviation operator_turn := (fun (k2 : key) (id : value) =>
  if isArray (get id k2) then
    let '(arr, r) := coerce_elements (get id k2) in
    (set id k2 arr, r)
  else (id, Ok tt)).

(** One turn of the loop over a sequence, at index [length seen]. *)
Lemma element_turn_at seen x rest :
  element_turn (length seen) (VArr (seen ++ x :: rest))
  = match ObjectID_of x with
    | Some id => (VArr (seen ++ VOid id :: rest), Ok tt)
    | None => (VArr (seen ++ x :: rest), Throw (InvalidIdentifierFormat x))
    end.
Proof.
  cbv beta. cbn [get]. rewrite list_lookup_middle by done.
  cbn [default from_option Datatypes.id]. unfold new_ObjectID.
  destruct (ObjectID_of x) as [id|]; [|done].
  cbn [set]. rewrite decide_True; [|rewrite length_app; simpl; lia].
  rewrite insert_app_r_alt by lia.
  replace (length seen - length seen) with 0 by lia. done.
Qed.

(** The loop stops at the first element that the constructor refuses:
    the elements before it are coerced, it and the elements after it are
    as they were. *)
Lemma coerce_elements_stops_from seen good bad rest :
  Forall accepted good → ObjectID_of bad = None →
  for_loop (seq (length seen) (length (good ++ bad :: rest))) element_turn
    (VArr (seen ++ good ++ bad :: rest))
  = (VArr (seen ++ (native_form <$> good) ++ bad :: rest),
     Throw (InvalidIdentifierFormat bad)).
Proof.
  intros Hgood Hbad. revert seen.
  induction Hgood as [|x good [id Hid] _ IH]; intros seen.
  - cbn [app length seq for_loop fmap list_fmap].
    rewrite element_turn_at, Hbad. done.
  - cbn [app length seq for_loop]. rewrite element_turn_at, Hid.
    specialize (IH (seen ++ [VOid id])).
    rewrite length_app in IH. cbn [length] in IH.
    replace (length seen + 1) with (S (length seen)) in IH by lia.
    rewrite <- !app_assoc in IH. cbn [app] in IH. rewrite IH.
    rewrite fmap_cons. unfold native_form at 2. by rewrite Hid.
Qed.

Lemma coerce_elements_stops good bad rest :
  Forall accepted good → ObjectID_of bad = None →
  coerce_elements (VArr (good ++ bad :: rest))
  = (VArr ((native_form <$> good) ++ bad :: rest),
     Throw (InvalidIdentifierFormat bad)).
Proof. intros Hg Hb. exact (coerce_elements_stops_from [] good bad rest Hg Hb). Qed.

(** A sequence that goes through was made of accepted elements. *)
Lemma coerce_elements_ok_from seen todo v :
  for_loop (seq (length seen) (length todo)) element_turn
    (VArr (seen ++ todo)) = (v, Ok tt) →
  Forall accepted todo.
Proof.
  revert seen. induction todo as [|x todo IH]; intros seen; [done|].
  cbn [length seq for_loop]. rewrite element_turn_at.
  destruct (ObjectID_of x) as [id|] eqn:Hid; [|done].
  intros Hl. constructor; [by eexists|].
  apply (IH (seen ++ [VOid id])).
  rewrite length_app. cbn [length].
  replace (length seen + 1) with (S (length seen)) by lia.
  rewrite <- app_assoc. exact Hl.
Qed.

Lemma coerce_elements_ok l v :
  coerce_elements (VArr l) = (v, Ok tt) → Forall accepted l.
Proof. apply (coerce_elements_ok_from [] l v). Qed.

(** One turn of the loop over the operators, at an operator whose key
    is new. *)
Lemma operator_turn_at seen k v rest :
  k ∉ seen.*1 →
  operator_turn (Name k) (VObj (seen ++ (k, v) :: rest))
  = match v with
    | VArr l =>
        let '(arr, r) := coerce_elements (VArr l) in
        (VObj (seen ++ (k, arr) :: rest), r)
    | _ => (VObj (seen ++ (k, v) :: rest), Ok tt)
    end.
Proof.
  intros Hk. cbv beta. cbn [get]. rewrite get_middle by done.
  cbn [default from_option Datatypes.id].
  destruct v; try done. cbn [isArray].
  destruct (coerce_elements (VArr elems)) as [arr r].
  cbn [set]. by rewrite set_middle.
Qed.

(** The operators [todo] go through, whatever follows them. *)
Lemma coerce_operators_through seen todo tail :
  NoDup (seen ++ todo ++ tail).*1 → acceptable todo →
  for_loop (Name <$> todo.*1) operator_turn (VObj (seen ++ todo ++ tail))
  = (VObj (seen ++ (coerced_operator <$> todo) ++ tail), Ok tt).
Proof.
  revert seen. induction todo as [|[k v] todo IH]; intros seen Hnd Hv; [done|].
  assert (Hk : k ∉ seen.*1).
  { rewrite fmap_app in Hnd. apply NoDup_app in Hnd as (_ & Hd & _).
    intros Hin. apply (Hd k Hin). left. }
  assert (Hrest : acceptable todo).
  { intros k' l x Hin. apply (Hv k' l x). by right. }
  assert (Hnext : ∀ v',
    for_loop (Name <$> todo.*1) operator_turn
      (VObj (seen ++ (k, v') :: todo ++ tail))
    = (VObj (seen ++ (k, v') :: (coerced_operator <$> todo) ++ tail), Ok tt)).
  { intros v'.
    assert (Hnd' : NoDup ((seen ++ [(k, v')]) ++ todo ++ tail).*1).
    { clear IH. rewrite <- app_assoc. cbn [app].
      rewrite !fmap_app, !fmap_cons, !fmap_app in *. exact Hnd. }
    specialize (IH (seen ++ [(k, v')]) Hnd' Hrest).
    rewrite <- !app_assoc in IH. exact IH. }
  rewrite !fmap_cons. cbn [for_loop app fst].
  rewrite operator_turn_at by done.
  destruct v; try apply Hnext.
  rewrite coerce_elements_valid; [apply Hnext|].
  apply Forall_forall. intros x Hx. apply (Hv k elems x); [left|done].
Qed.

(** The operators go through only when their sequences are accepted. *)
Lemma coerce_operators_ok_from seen todo v :
  NoDup (seen ++ todo).*1 →
  for_loop (Name <$> todo.*1) operator_turn (VObj (seen ++ todo)) = (v, Ok tt) →
  acceptable todo.
Proof.
  revert seen. induction todo as [|[k x] todo IH]; intros seen Hnd.
  { intros _ k l y Hin. by apply elem_of_nil in Hin. }
  assert (Hk : k ∉ seen.*1).
  { rewrite fmap_app in Hnd. apply NoDup_app in Hnd as (_ & Hd & _).
    intros Hin. apply (Hd k Hin). left. }
  rewrite !fmap_cons. cbn [for_loop fst]. rewrite operator_turn_at by done.
  assert (Hstep : ∀ x', NoDup ((seen ++ [(k, x')]) ++ todo).*1).
  { intros x'. rewrite <- app_assoc. cbn [app].
    rewrite !fmap_app, !fmap_cons in *. exact Hnd. }
  assert (Htail : ∀ x',
    for_loop (Name <$> todo.*1) operator_turn
      (VObj (seen ++ (k, x') :: todo)) = (v, Ok tt) →
    acceptable todo).
  { intros x' Hl. apply (IH (seen ++ [(k, x')]) (Hstep x')).
    rewrite <- app_assoc. exact Hl. }
  destruct x;
    try (intros Hl k' l y Hin Hy;
         apply elem_of_cons in Hin as [[=]|Hin];
         exact (Htail _ Hl k' l y Hin Hy)).
  destruct (coerce_elements (VArr elems)) as [arr [[]|e]] eqn:Hce; [|done].
  intros Hl k' l y Hin Hy.
  apply elem_of_cons in Hin as [[= -> ->]|Hin].
  - pose proof (coerce_elements_ok _ _ Hce) as Hall.
    by apply (proj1 (Forall_forall _ _) Hall).
  - exact (Htail _ Hl k' l y Hin Hy).
Qed.

Lemma coerce_operators_ok ops v :
  NoDup ops.*1 → coerce_operators (VObj ops) = (v, Ok tt) → acceptable ops.
Proof. apply (coerce_operators_ok_from [] ops v). Qed.

End PartialCoercion.

Section ProcessFilterMore.
Context `{Bson}.
Import Collection.

Lemma coerced_operator_key p : (coerced_operator p).1 = p.1.
Proof. destruct p as [k v]. by destruct v. Qed.

Lemma coerced_operators_keys ops : (coerced_operator <$> ops).*1 = ops.*1.
Proof.
  induction ops as [|p ops IH]; [done|].
  rewrite !fmap_cons, coerced_operator_key. by f_equal.
Qed.

(** With distinct keys, [processFilter] is its one turn at [_id]. *)
Lemma processFilter_operator_object kvs ops :
  NoDup kvs.*1 → Assoc.get "_id" kvs = Some (VObj ops) →
  processFilter (VObj kvs)
  = let '(id, r) := coerce_operators (VObj ops) in
    (VObj (Assoc.set "_id" id kvs), r).
Proof.
  intros Hnd Hg. unfold processFilter.
  rewrite (for_loop_once _ _ _ (Name "_id")).
  - cbv beta. cbn [key_eqb get]. rewrite String.eqb_refl, Hg.
    cbn [default from_option Datatypes.id typeof].
    by destruct (coerce_operators (VObj ops)).
  - cbn [enumerate]. apply NoDup_fmap_2; [|done]. by intros ?? [=].
  - apply name_enumerated. simpl. by rewrite Hg.
  - intros k s Hne. cbv beta. by destruct (key_eqb_spec k (Name "_id")).
Qed.

(** X1.  The operator-object of [_id] holds, after the operators
    [before] whose sequences are accepted, an operator whose sequence has
    a first refused element [bad].  Then [processFilter] throws
    [InvalidIdentifierFormat] for [bad] and leaves the filter half
    coerced: the sequences of [before] and the elements before [bad] are
    in native form, [bad], the elements after it and the operators after
    it are as they were. *)
Theorem processFilter_stops_at_refused_element
    (kvs before after : list (string * value)) (k : string)
    (good rest : list value) (bad : value) :
  NoDup kvs.*1 →
  NoDup (before ++ (k, VArr (good ++ bad :: rest)) :: after).*1 →
  Assoc.get "_id" kvs
  = Some (VObj (before ++ (k, VArr (good ++ bad :: rest)) :: after)) →
  acceptable before →
  Forall (fun x => is_Some (ObjectID_of x)) good →
  ObjectID_of bad = None →
  processFilter (VObj kvs)
  = (VObj (Assoc.set "_id"
             (VObj ((coerced_operator <$> before)
                    ++ (k, VArr ((native_form <$> good) ++ bad :: rest))
                    :: after)) kvs),
     Throw (InvalidIdentifierFormat bad)).
Proof.
  intros Hnd Hops Hg Hbefore Hgood Hbad.
  rewrite (processFilter_operator_object _ _ Hnd Hg).
  unfold coerce_operators. cbn [enumerate].
  rewrite !fmap_app, !fmap_cons, for_loop_app. cbn [fst].
  pose proof (coerce_operators_through [] before _ Hops Hbefore) as Hthr.
  cbn [app] in Hthr. rewrite Hthr. clear Hthr.
  cbn [for_loop].
  rewrite operator_turn_at.
  - by rewrite (coerce_elements_stops good bad rest Hgood Hbad).
  - rewrite coerced_operators_keys.
    rewrite fmap_app in Hops. apply NoDup_app in Hops as (_ & Hd & _).
    intros Hin. apply (Hd k Hin). left.
Qed.

(** An object none of whose operators holds a sequence is left alone. *)
Lemma processFilter_no_sequence (filter : value) :
  typeof (get filter (Name "_id")) = TObject →
  (∀ k, k ∈ enumerate (get filter (Name "_id")) →
        isArray (get (get filter (Name "_id")) k) = false) →
  processFilter filter = (filter, Ok tt).
Proof.
  intros Hty Hscalar. unfold processFilter. apply for_loop_skip.
  intros k _. destruct (key_eqb_spec k (Name "_id")) as [->|Hne]; [|done].
  rewrite Hty. unfold coerce_operators. rewrite for_loop_skip.
  - rewrite set_name_same; [done|]. apply typeof_defined. by right.
  - intros k Hk. cbv beta. by rewrite (Hscalar k Hk).
Qed.

(** X2.  When the [_id] of a filter is an object none of whose
    operators holds a sequence (as in [{_id: {$eq: "..."}}], or
    [null]), [processFilter] returns the filter as it is: an identifier
    given under a scalar operator is not coerced, and none is checked. *)
Theorem processFilter_skips_scalar_operators (filter : value) :
  typeof (get filter (Name "_id")) = TObject →
  (∀ k, k ∈ enumerate (get filter (Name "_id")) →
        isArray (get (get filter (Name "_id")) k) = false) →
  processFilter filter = (filter, Ok tt).
Proof. apply processFilter_no_sequence. Qed.

Lemma set_set k x y kvs :
  Assoc.set k x (Assoc.set k y kvs) = Assoc.set k x kvs.
Proof.
  induction kvs as [|[k' v] rest IH]; simpl.
  - by rewrite String.eqb_refl.
  - destruct (String.eqb k' k) eqn:E; simpl.
    + by rewrite String.eqb_refl.
    + by rewrite E, IH.
Qed.

Lemma coerced_operator_twice p :
  (∀ id, ObjectID_of (VOid id) = Some id) →
  acceptable [p] →
  coerced_operator (coerced_operator p) = coerced_operator p.
Proof.
  intros Hoid Hp. destruct p as [k v]. destruct v; try done.
  unfold coerced_operator. cbn [fst snd]. do 2 f_equal.
  rewrite <- list_fmap_compose. apply list_fmap_ext. intros i x Hx.
  destruct (Hp k elems x) as [id Hid]; [left | |].
  { eapply list_elem_of_lookup_2. exact Hx. }
  cbn [compose]. unfold native_form at 2. rewrite Hid.
  unfold native_form. by rewrite Hoid, Hid.
Qed.

Lemma coerced_acceptable ops :
  (∀ id, ObjectID_of (VOid id) = Some id) →
  acceptable ops → acceptable (coerced_operator <$> ops).
Proof.
  intros Hoid Hops k l x Hin Hx.
  apply list_elem_of_fmap in Hin as ([k' v] & Heq & Hin).
  destruct v; unfold coerced_operator in Heq; cbn [fst snd] in Heq;
    try discriminate.
  injection Heq as -> ->.
  apply list_elem_of_fmap in Hx as (y & -> & Hy).
  destruct (Hops k' elems y Hin Hy) as [id Hid].
  unfold native_form. rewrite Hid, Hoid. by eexists.
Qed.

(** X3.  [processFilter] is idempotent on the filters it accepts: when
    it returns, a second call on the filter it left returns it
    unchanged.  (The keys of the filter and of its operator-object are
    distinct, the [_id] is not itself an array, and the constructor
    returns the ObjectID it is given.) *)
Theorem processFilter_twice (kvs : list (string * value)) (filter' : value) :
  (∀ id, ObjectID_of (VOid id) = Some id) →
  NoDup kvs.*1 →
  (∀ ops, Assoc.get "_id" kvs = Some (VObj ops) → NoDup ops.*1) →
  isArray (get (VObj kvs) (Name "_id")) = false →
  processFilter (VObj kvs) = (filter', Ok tt) →
  processFilter filter' = (filter', Ok tt).
Proof.
  intros Hoid Hnd Hops Hnarr Hpf.
  destruct (Assoc.get "_id" kvs) as [v|] eqn:Hg.
  2:{ assert (Hsame : processFilter (VObj kvs) = (VObj kvs, Ok tt)).
      { unfold processFilter. apply for_loop_skip. intros k _.
        destruct (key_eqb_spec k (Name "_id")) as [->|Hne]; [|done].
        cbn [get]. by rewrite Hg. }
      rewrite Hsame in Hpf. by injection Hpf as <-. }
  assert (Hgv : get (VObj kvs) (Name "_id") = v) by (simpl; by rewrite Hg).
  destruct v.
  - (* undefined *)
    assert (Hsame : processFilter (VObj kvs) = (VObj kvs, Ok tt)).
    { unfold processFilter. apply for_loop_skip. intros k _.
      destruct (key_eqb_spec k (Name "_id")) as [->|Hne]; [|done].
      by rewrite Hgv. }
    rewrite Hsame in Hpf. by injection Hpf as <-.
  - (* null *)
    assert (Hsame : processFilter (VObj kvs) = (VObj kvs, Ok tt)).
    { apply processFilter_no_sequence; rewrite Hgv; [done|].
      intros k Hk. by apply elem_of_nil in Hk. }
    rewrite Hsame in Hpf. by injection Hpf as <-.
  - (* a boolean *)
    assert (Hsame : processFilter (VObj kvs) = (VObj kvs, Ok tt)).
    { unfold processFilter. apply for_loop_skip. intros k _.
      destruct (key_eqb_spec k (Name "_id")) as [->|Hne]; [|done].
      by rewrite Hgv. }
    rewrite Hsame in Hpf. by injection Hpf as <-.
  - (* a number *)
    assert (Hsame : processFilter (VObj kvs) = (VObj kvs, Ok tt)).
    { unfold processFilter. apply for_loop_skip. intros k _.
      destruct (key_eqb_spec k (Name "_id")) as [->|Hne]; [|done].
      by rewrite Hgv. }
    rewrite Hsame in Hpf. by injection Hpf as <-.
  - (* a string *)
    destruct (ObjectID_of (VStr s)) as [id|] eqn:Hid.
    + rewrite (processFilter_string _ s id Hgv Hid) in Hpf.
      injection Hpf as <-. apply (processFilter_native _ id).
      apply (get_set_name (VObj kvs)). by rewrite Hgv.
    + by rewrite (processFilter_invalid _ s Hgv Hid) in Hpf.
  - (* an identifier *)
    rewrite (processFilter_native _ id Hgv) in Hpf. injection Hpf as <-.
    by apply (processFilter_native _ id).
  - (* an array *)
    by rewrite Hgv in Hnarr.
  - (* an operator-object *)
    rewrite (processFilter_operator_object _ _ Hnd Hg) in Hpf.
    destruct (coerce_operators (VObj props)) as [id [[]|e]] eqn:Hco; [|done].
    injection Hpf as <-.
    pose proof (coerce_operators_ok _ _ (Hops _ eq_refl) Hco) as Hacc.
    rewrite (coerce_operators_valid _ (Hops _ eq_refl) Hacc) in Hco.
    injection Hco as <-.
    rewrite (processFilter_operators _ (coerced_operator <$> props)).
    + rewrite set_set. do 4 f_equal.
      rewrite <- list_fmap_compose. apply list_fmap_ext. intros i p Hp.
      apply coerced_operator_twice; [done|].
      intros k l x Hin Hx. apply list_elem_of_singleton in Hin as <-.
      eapply Hacc; [|done]. eapply list_elem_of_lookup_2. exact Hp.
    + by rewrite (keys_set _ _ _ _ Hg).
    + rewrite coerced_operators_keys. by apply Hops.
    + apply get_set_eq.
    + by apply coerced_acceptable.
Qed.

End ProcessFilterMore.

(** ** sanitizeFilter: what it keeps, and what it costs *)

Section SanitizeFilterMore.
Import Collection.

Lemma strip_fixed v : no_reserved_key v = true → strip v = v.
Proof.
  induction v as [| | | | | |l IH|kvs IH] using value_ind'; simpl; try done.
  - intros Hc. f_equal.
    induction IH as [|x l Hx _ IHl]; simpl in *; [done|].
    apply andb_prop in Hc as [Hcx Hcl]. by rewrite Hx, IHl.
  - intros Hc. f_equal.
    induction IH as [|[k x] kvs Hx _ IHk]; simpl in *; [done|].
    apply andb_prop in Hc as [Hck Hcl]. apply andb_prop in Hck as [Hk Hcx].
    rewrite Hk. simpl. by rewrite Hx, IHk.
Qed.

(** X4.  [sanitizeFilter] returns its argument unchanged exactly when
    the argument has no key that begins with the reserved prefix, at any
    depth: it never alters a filter that holds no such key.  (The
    argument is given; a missing one becomes [{}].) *)
Theorem sanitizeFilter_fixes_clean_filters (filter : value) :
  filter ≠ VUndef →
  sanitizeFilter filter = Some filter ↔ no_reserved_key filter = true.
Proof.
  intros Hdef. unfold sanitizeFilter.
  rewrite sanitizeFilter_rec_strip by lia.
  replace (default_arg (VObj []) filter) with filter by (by destruct filter).
  split.
  - intros [= Heq]. rewrite <- Heq. apply strip_clean.
  - intros Hc. by rewrite strip_fixed.
Qed.

Lemma get_stripped k kvs :
  reserved k = false →
  Assoc.get k (List.filter (fun p => negb (reserved p.1))
                 (List.map (fun p => (p.1, strip p.2)) kvs))
  = strip <$> Assoc.get k kvs.
Proof.
  intros Hk. induction kvs as [|[k' v] kvs IH]; simpl; [done|].
  destruct (String.eqb_spec k' k) as [->|Hne].
  - rewrite Hk. simpl. by rewrite String.eqb_refl.
  - destruct (reserved k'); simpl; [done|].
    destruct (String.eqb_spec k' k); [done|]. exact IH.
Qed.

Lemma strip_all_reserved ops :
  Forall (fun p : string * value => reserved p.1 = true) ops →
  strip (VObj ops) = VObj [].
Proof.
  intros Hall. simpl. f_equal.
  induction Hall as [|[k v] ops Hk _ IH]; simpl in *; [done|].
  by rewrite Hk.
Qed.

(** X5.  Sanitizing a filter whose [_id] is an operator-object made of
    reserved operators only (as in [{_id: {$in: [...]}}]) leaves [_id]
    as the empty object [{}]: the operators the caller wrote are
    stripped like injected ones.  [processFilter] then has nothing to
    coerce, and returns the sanitized filter as it is, whatever the
    identifiers were. *)
Theorem sanitizeFilter_strips_authored_operators `{Bson}
    (kvs ops : list (string * value)) :
  Assoc.get "_id" kvs = Some (VObj ops) →
  Forall (fun p : string * value => reserved p.1 = true) ops →
  ∃ clean,
    sanitizeFilter (VObj kvs) = Some clean
    ∧ get clean (Name "_id") = VObj []
    ∧ processFilter clean = (clean, Ok tt).
Proof.
  intros Hg Hall. exists (strip (VObj kvs)).
  assert (Hid : get (strip (VObj kvs)) (Name "_id") = VObj []).
  { cbn [strip get]. rewrite get_stripped by done. rewrite Hg.
    cbn [fmap option_fmap option_map default from_option Datatypes.id].
    by apply strip_all_reserved. }
  split; [|split; [done|]].
  - unfold sanitizeFilter. by rewrite sanitizeFilter_rec_strip by lia.
  - apply processFilter_no_sequence; rewrite Hid; [done|].
    intros k Hk. by apply elem_of_nil in Hk.
Qed.

End SanitizeFilterMore.

(** ** The methods of Collection, on the edges *)

Section CollectionMethodsMore.
Context `{Bson} {S : Type} `{NativeCollection S}.
Import Collection.

Lemma refused_filter_given filter filter' e :
  processFilter filter = (filter', Throw e) →
  default_arg (VObj []) filter = filter.
Proof. by destruct filter. Qed.

(** X6.  When [processFilter] refuses the filter, the method rejects
    with that error before anything reaches the store: no call is made
    and the store is as it was.  This holds for [deleteDocument],
    [getDocument], [getDocuments], [replaceDocument] and
    [updateDocument]. *)
Theorem refused_filter_reaches_no_store
    (filter filter' options : value) (e : error) (st : S) :
  processFilter filter = (filter', Throw e) →
  deleteDocument filter options st
  = (st, [Logged Debug (Text "Deleting document");
          Logged Verbose (Dump filter);
          Logged Verbose (Dump (default_arg (VObj []) options))], Throw e)
  ∧ getDocument filter options st
    = (st, [Logged Debug (Text "Getting document");
            Logged Verbose (Dump filter);
            Logged Verbose (Dump (default_arg (VObj []) options))], Throw e)
  ∧ getDocuments filter options st
    = (st, [Logged Debug (Text "Getting documents");
            Logged Verbose (Dump filter);
            Logged Verbose
              (Dump (default_arg (VObj [("limit", VNum 10)]) options))],
       Throw e)
  ∧ (∀ payload payload',
       delete_prop payload "_id" = Ok payload' →
       replaceDocument filter payload options st
       = (st, [Logged Debug (Text "Replacing document");
               Logged Verbose (Dump filter);
               Logged Verbose (Dump payload');
               Logged Verbose (Dump (default_arg (VObj []) options))],
          Throw e)
       ∧ updateDocument filter payload options st
         = (st, [Logged Debug (Text "Updating document");
                 Logged Verbose (Dump filter);
                 Logged Verbose (Dump payload');
                 Logged Verbose (Dump (default_arg (VObj []) options))],
            Throw e)).
Proof.
  intros Hf. split; [|split; [|split]].
  - unfold deleteDocument. run_method.
    by rewrite (processed_throw _ _ _ _ Hf).
  - unfold getDocument. run_method.
    by rewrite (processed_throw _ _ _ _ Hf).
  - unfold getDocuments. run_method.
    rewrite (refused_filter_given _ _ _ Hf).
    by rewrite (processed_throw _ _ _ _ Hf).
  - intros payload payload' Hd. split.
    + unfold replaceDocument. run_method.
      rewrite Hd. by rewrite (processed_throw _ _ _ _ Hf).
    + unfold updateDocument. run_method.
      rewrite Hd. by rewrite (processed_throw _ _ _ _ Hf).
Qed.

(** X7.  [replaceDocument] and [updateDocument] called with a payload
    that is [undefined] or [null] reject with a TypeError at their first
    statement, [delete payload._id]: nothing is logged, the filter is not
    looked at, and no call is made. *)
Theorem missing_payload_is_a_type_error
    (filter payload options : value) (st : S) :
  payload = VUndef ∨ payload = VNull →
  replaceDocument filter payload options st
  = (st, [], Throw (TypeError "Cannot convert undefined or null to object"))
  ∧ updateDocument filter payload options st
    = (st, [],
       Throw (TypeError "Cannot convert undefined or null to object")).
Proof. intros [->| ->]; by split. Qed.

(** X8.  [deleteDocument] logs its options and never hands them to the
    store: the call it makes, its result and the state of the store are
    the same whatever the options. *)
Theorem deleteDocument_drops_options (filter options options' : value) (st : S) :
  calls_of (emitted (deleteDocument filter options st))
  = calls_of (emitted (deleteDocument filter options' st))
  ∧ settled (deleteDocument filter options st)
    = settled (deleteDocument filter options' st)
  ∧ final (deleteDocument filter options st)
    = final (deleteDocument filter options' st).
Proof.
  unfold deleteDocument. run_method. unfold processed.
  destruct (processFilter filter) as [filter' [[]|e]]; [|done].
  unfold ret. cbn [fst snd app].
  destruct (coll_deleteOne filter' st) as [[r|e] st']; [|done].
  by destruct (nonzero (deletedCount r)).
Qed.

(** X9.  [insertDocument] submits the document as it is given, and
    resolves with the answer of the store, also when that answer counts
    no inserted document.  The identifier of the document is not
    coerced: a document whose [_id] is a valid identifier string is
    inserted under the string, while [getDocument] on the same object
    looks for the ObjectID built from it. *)
Theorem insertDocument_submits_document_as_given
    (document options : value) (st : S) :
  calls_of (emitted (insertDocument document options st))
  = [InsertOne document (default_arg (VObj []) options)]
  ∧ (∀ r st',
       coll_insertOne document (default_arg (VObj []) options) st
       = (Ok r, st') →
       settled (insertDocument document options st) = Ok r
       ∧ final (insertDocument document options st) = st')
  ∧ (∀ s id,
       get document (Name "_id") = VStr s →
       ObjectID_of (VStr s) = Some id →
       calls_of (emitted (getDocument document options st))
       = [FindOne (set document (Name "_id") (VOid id))
            (default_arg (VObj []) options)]).
Proof.
  split; [|split].
  - unfold insertDocument. run_method.
    destruct (coll_insertOne _ _ st) as [[r|e] st']; [|done].
    by destruct (nonzero (insertedCount r)).
  - intros r st' Hc. unfold insertDocument. run_method. rewrite Hc.
    by destruct (nonzero (insertedCount r)).
  - intros s id Hg Hid. apply getDocument_calls.
    by apply (processFilter_string _ s).
Qed.

(** X10.  [getDocuments] called with no argument asks for every
    document with the options [{limit: 10}], and resolves with the array
    that the cursor gives.  Options that the caller passes are submitted
    as they are, in place of the default: without a [limit] of their own
    they lift the limit.  A rejection of [find] or of [toArray] is
    propagated. *)
Theorem getDocuments_defaults (st : S) :
  (∀ cursor st1 docs st2,
      coll_find (VObj []) (VObj [("limit", VNum 10)]) st = (Ok cursor, st1) →
      cursor_toArray cursor st1 = (Ok docs, st2) →
      getDocuments VUndef VUndef st
      = (st2, [Logged Debug (Text "Getting documents");
               Logged Verbose (Dump (VObj []));
               Logged Verbose (Dump (VObj [("limit", VNum 10)]));
               Called (Find (VObj []) (VObj [("limit", VNum 10)]));
               Called (ToArray cursor)], Ok (VArr docs)))
  ∧ (∀ filter filter' options,
      options ≠ VUndef →
      processFilter (default_arg (VObj []) filter) = (filter', Ok tt) →
      ∃ rest,
        calls_of (emitted (getDocuments filter options st))
        = Find filter' options :: rest)
  ∧ (∀ filter filter' options e st1,
      processFilter (default_arg (VObj []) filter) = (filter', Ok tt) →
      coll_find filter' (default_arg (VObj [("limit", VNum 10)]) options) st
      = (Throw e, st1) →
      settled (getDocuments filter options st) = Throw e)
  ∧ (∀ filter filter' options cursor st1 e st2,
      processFilter (default_arg (VObj []) filter) = (filter', Ok tt) →
      coll_find filter' (default_arg (VObj [("limit", VNum 10)]) options) st
      = (Ok cursor, st1) →
      cursor_toArray cursor st1 = (Throw e, st2) →
      settled (getDocuments filter options st) = Throw e).
Proof.
  split; [|split; [|split]].
  - intros cursor st1 docs st2 Hfind Harr.
    unfold getDocuments. run_method. cbn [default_arg].
    rewrite (processed_ok (VObj []) (VObj []) st eq_refl).
    cbn [fst snd app]. rewrite Hfind. by rewrite Harr.
  - intros filter filter' options Hopt Hf.
    destruct (getDocuments_calls filter filter' options st Hf) as [rest Hr].
    exists rest. rewrite Hr. by destruct options.
  - intros filter filter' options e st1 Hf Hfind.
    unfold getDocuments. run_method.
    rewrite (processed_ok _ _ _ Hf). by rewrite Hfind.
  - intros filter filter' options cursor st1 e st2 Hf Hfind Harr.
    unfold getDocuments. run_method.
    rewrite (processed_ok _ _ _ Hf). rewrite Hfind. by rewrite Harr.
Qed.

(** X11.  [drop] and [wipe] never reject: whatever the store answers,
    each makes its one call ([drop], and [deleteMany] with the empty
    filter) and resolves with [undefined]. *)
Theorem drop_and_wipe_always_resolve (st : S) :
  settled (drop st) = Ok VUndef
  ∧ calls_of (emitted (drop st)) = [Drop]
  ∧ settled (wipe st) = Ok VUndef
  ∧ calls_of (emitted (wipe st)) = [DeleteMany (VObj [])].
Proof.
  unfold drop, wipe. run_method.
  destruct (coll_drop st) as [[r|e] st'];
    destruct (coll_deleteMany (VObj []) st) as [[r'|e'] st'']; done.
Qed.

End CollectionMethodsMore.

(** ** The methods of Database, on the edges *)

Section DatabaseMethodsMore.
Context {C : Type} `{MongoClient C}.
Import Database.

Local Abbreviation wrapper_of := (fun name : string =>
  {| collectionName := name |}).

Local Abbreviation registered := (fun (registry : gmap string wrapper)
    (names : list string) =>
  foldl (fun registry name => <[name := wrapper_of name]> registry)
    registry names).

(** X12.  [connect] has three outcomes.  When the driver rejects, the
    error is propagated and the connection is not checked.  When the
    driver resolves and the health check says connected, it logs and
    resolves with [true].  When the health check says not connected, it
    throws [Failed to connect to <url>].  In no case does it touch the
    object. *)
Theorem connect_outcomes (c : C) (this : t) :
  (∀ e c1,
      client_connect c = (Throw e, c1) →
      connect (c, this)
      = ((c1, this),
         [Logged Debug (Text ("Connecting to " +:+ url this));
          Called Connect], Throw e))
  ∧ (∀ c1 c2,
      client_connect c = (Ok tt, c1) →
      client_isConnected c1 = (Ok true, c2) →
      connect (c, this)
      = ((c2, this),
         [Logged Debug (Text ("Connecting to " +:+ url this));
          Called Connect; Called IsConnected;
          Logged Info (Text ("Connected to " +:+ url this))],
         Ok (VBool true)))
  ∧ (∀ c1 c2,
      client_connect c = (Ok tt, c1) →
      client_isConnected c1 = (Ok false, c2) →
      connect (c, this)
      = ((c2, this),
         [Logged Debug (Text ("Connecting to " +:+ url this));
          Called Connect; Called IsConnected],
         Throw (ConnectionFailure ("Failed to connect to " +:+ url this)))).
Proof.
  split; [|split].
  - intros e c1 Hc. unfold connect, read, ask. run_method. by rewrite Hc.
  - intros c1 c2 Hc Hi. unfold connect, read, ask. run_method.
    rewrite Hc. cbn [fst snd]. by rewrite Hi.
  - intros c1 c2 Hc Hi. unfold connect, read, ask. run_method.
    rewrite Hc. cbn [fst snd]. by rewrite Hi.
Qed.

(** X13.  When the connection fails, [initialize] rejects with the
    error of [connect] and goes no further: it emits what [connect]
    emitted, so it neither lists nor creates a collection, and the
    object is as it was (its [db] is not set, its registry is
    untouched). *)
Theorem initialize_stops_when_connect_fails (st : C * t) (e : error) :
  settled (connect st) = Throw e →
  settled (initialize st) = Throw e
  ∧ emitted (initialize st) = emitted (connect st)
  ∧ (final (initialize st)).2 = st.2.
Proof.
  intros Hc. pose proof (connect_keeps_object st) as Hk.
  assert (Hi : initialize st = connect st).
  { unfold initialize. unfold bind at 1.
    destruct (connect st) as [[st1 t1] r1].
    unfold settled in Hc. cbn [snd] in Hc. by subst r1. }
  by rewrite Hi.
Qed.

Lemma registry_ok_insert name this :
  registry_ok this →
  registry_ok (with_collections
                 (<[name := wrapper_of name]> (collections this)) this).
Proof.
  intros Hok n w. cbn [collections with_collections].
  destruct (decide (name = n)) as [->|Hne].
  - rewrite lookup_insert_eq. by intros [= <-].
  - rewrite lookup_insert_ne by done. apply Hok.
Qed.

Lemma createCollection_keeps_registry_ok name st :
  registry_ok st.2 → registry_ok (final (createCollection name st)).2.
Proof.
  destruct st as [c this]. cbn [snd]. intros Hok.
  destruct (db this) as [d|] eqn:Hd.
  - assert (Hdb : is_Some (db this)) by (by eexists).
    destruct (db_createCollection name c) as [[[]|e] c'] eqn:E.
    + rewrite (createCollection_created _ _ _ _ Hdb E).
      by apply registry_ok_insert.
    + by rewrite (createCollection_failed _ _ _ _ _ Hdb E).
  - by rewrite (createCollection_unopened _ _ _ Hd).
Qed.

Lemma createCollections_keeps_registry_ok requested st :
  registry_ok st.2 → registry_ok (final (createCollections requested st)).2.
Proof.
  intros Hok. unfold createCollections, read. unfold bind at 1.
  cbn [fst snd].
  pose proof (for_each_final_inv (fun s => registry_ok s.2)
    (missing_of (collections st.2) requested)
    (fun name => createCollection name ;;; ret tt) st Hok) as Hl.
  destruct (for_each _ _ st) as [[st1 t1] r1].
  unfold final in *. cbn [fst snd] in *. apply Hl.
  intros x s Hs. unfold bind, ret.
  pose proof (createCollection_keeps_registry_ok x s Hs) as Hc.
  destruct (createCollection x s) as [[s2 t2] [v|e]];
    unfold final in *; by cbn [fst snd] in *.
Qed.

Lemma getCollections_keeps_registry_ok st :
  registry_ok st.2 → registry_ok (final (getCollections st)).2.
Proof.
  destruct st as [c this]. cbn [snd]. intros Hok.
  destruct (db this) as [d|] eqn:Hd.
  - assert (Hdb : is_Some (db this)) by (by eexists).
    destruct (db_listCollections c) as [[items|e] c'] eqn:E.
    + rewrite (proj1 (getCollections_listed _ _ _ _ Hdb E)). cbn [snd].
      assert (Hr : ∀ registry,
                 registry_ok (with_collections registry this) →
                 registry_ok (with_collections (registered registry items)
                                this)).
      { clear E. induction items as [|x items IH]; intros registry Hr;
          [done|].
        cbn [foldl]. apply IH.
        apply (registry_ok_insert x (with_collections registry this)) in Hr.
        by destruct this. }
      apply Hr. by rewrite with_collections_same.
    + by rewrite (getCollections_failed _ _ _ _ Hdb E).
  - by rewrite (getCollections_unopened _ _ Hd).
Qed.

(** X14.  The registry keeps its keys in step with its wrappers: if
    every key is the name of the collection that its wrapper holds, this
    is still so after [getCollections], after [createCollection], after
    [createCollections] and after [initialize], however they end. *)
Theorem registry_keys_name_their_wrappers (st : C * t) :
  registry_ok st.2 →
  registry_ok (final (getCollections st)).2
  ∧ (∀ name, registry_ok (final (createCollection name st)).2)
  ∧ (∀ requested, registry_ok (final (createCollections requested st)).2)
  ∧ registry_ok (final (initialize st)).2.
Proof.
  intros Hok. split; [|split; [|split]].
  - by apply getCollections_keeps_registry_ok.
  - intros name. by apply createCollection_keeps_registry_ok.
  - intros requested. by apply createCollections_keeps_registry_ok.
  - pose proof (connect_keeps_object st) as Hk.
    unfold initialize. unfold bind at 1.
    destruct (connect st) as [[st1 t1] [v|e]];
      unfold final in *; cbn [fst snd] in *; [|by rewrite Hk].
    unfold read, write. unfold bind at 1 2 3. cbn [fst snd].
    assert (Hok1 : registry_ok
                     (st1.1, with_db (getDatabase (name st1.2)) st1.2).2).
    { cbn [snd]. rewrite Hk. exact Hok. }
    pose proof (getCollections_keeps_registry_ok _ Hok1) as Hg.
    destruct (getCollections _) as [[st2 t2] [[]|e]];
      unfold final in *; cbn [fst snd] in *; [|done].
    unfold bind at 1 2. cbn [fst snd].
    pose proof (createCollections_keeps_registry_ok
                  (collection_names st2.2) st2 Hg) as Hc.
    destruct (createCollections _ st2) as [[st3 t3] [[]|e]];
      unfold final in *; by cbn [fst snd] in *.
Qed.

(** *** What is asked of the server, and what is registered *)

(** X15.  On an object whose [db] is set, [createCollections]
    resolves, and what it asks of the server is the creation of the
    requested names that are not keys of the registry as it is when the
    method is entered: each of them once for every time it is
    requested, in the order of the request, and nothing else.  So a
    name that is registered is never created again, and a name
    requested twice is asked for twice (the list is made before the
    first creation).  On an object whose [db] is not set, the first of
    these names makes [createCollections] reject with a type error,
    after the debug entry of its creation and before any call to the
    server.  When every requested name is registered, the method does
    nothing, whatever [db] is. *)
Theorem createCollections_asks_for_missing_names
    (requested : list string) (st : C * t) :
  (is_Some (db st.2) →
   settled (createCollections requested st) = Ok tt
   ∧ calls_of (emitted (createCollections requested st))
     = CreateCollection
         <$> filter (fun name => collections st.2 !! name = None) requested)
  ∧ (∀ name rest,
      db st.2 = None →
      filter (fun name => collections st.2 !! name = None) requested
      = name :: rest →
      createCollections requested st
      = (st, [Logged Debug (Text ("Creating " +:+ name +:+ " collection"))],
         Throw (null_db "createCollection")))
  ∧ (filter (fun name => collections st.2 !! name = None) requested = [] →
     createCollections requested st = (st, [], Ok tt)).
Proof.
  split; [|split].
  - intros Hdb.
    destruct (createCollections_opened requested st Hdb) as (Hs & _ & Hc).
    split; [exact Hs|]. by rewrite Hc, missing_of_filter.
  - intros name rest Hdb Hm.
    rewrite createCollections_loop, missing_of_filter, Hm.
    destruct st as [c this]. cbn [snd] in Hdb.
    cbn [for_each]. unfold bind.
    by rewrite (createCollection_unopened _ _ _ Hdb).
  - intros Hm. by rewrite createCollections_loop, missing_of_filter, Hm.
Qed.

(** X16.  On an object whose [db] is set: after a creation that the
    server accepts, [getCollection] returns the wrapper of the new
    collection, and what it returns for any other name is unchanged;
    after a creation that the server rejects, [getCollection] returns
    for every name what it returned before: nothing is registered.  On
    an object whose [db] is not set, [createCollection] throws a type
    error after its debug entry: the server is not asked, and nothing
    is registered. *)
Theorem createCollection_then_getCollection (name : string) (c : C) (this : t) :
  (∀ c',
      is_Some (db this) →
      db_createCollection name c = (Ok tt, c') →
      settled (getCollection name (final (createCollection name (c, this))))
      = Ok (Some (wrapper_of name))
      ∧ ∀ other, other ≠ name →
          settled (getCollection other
                     (final (createCollection name (c, this))))
          = settled (getCollection other (c, this)))
  ∧ (∀ e c',
      is_Some (db this) →
      db_createCollection name c = (Throw e, c') →
      ∀ other,
        settled (getCollection other (final (createCollection name (c, this))))
        = settled (getCollection other (c, this)))
  ∧ (db this = None →
     createCollection name (c, this)
     = ((c, this),
        [Logged Debug (Text ("Creating " +:+ name +:+ " collection"))],
        Throw (null_db "createCollection"))).
Proof.
  split; [|split].
  - intros c' Hdb Hc. rewrite (createCollection_created _ _ _ _ Hdb Hc).
    unfold getCollection, read, settled, final.
    cbn [fst snd collections with_collections]. split.
    + by rewrite lookup_insert_eq.
    + intros other Hne. by rewrite lookup_insert_ne.
  - intros e c' Hdb Hc other.
    by rewrite (createCollection_failed _ _ _ _ _ Hdb Hc).
  - apply createCollection_unopened.
Qed.

(** X17.  On an object whose [db] is set, when the server lists its
    collections, [getCollections] resolves after that one call and
    registers a wrapper under each listed name, in place of the one
    that the name had if any, and leaves the other names as they
    were; with an empty list the registry is unchanged.  On an object
    whose [db] is not set, [getCollections] rejects with a type error
    after its debug entry: the server is not asked, and nothing is
    registered. *)
Theorem getCollections_registers_listed
    (c c' : C) (this : t) (items : list string) :
  (is_Some (db this) →
   db_listCollections c = (Ok items, c') →
   final (getCollections (c, this))
   = (c', with_collections (registered (collections this) items) this)
   ∧ settled (getCollections (c, this)) = Ok tt
   ∧ calls_of (emitted (getCollections (c, this))) = [ListCollections]
   ∧ ∀ n,
       registered (collections this) items !! n
       = if decide (n ∈ items) then Some (wrapper_of n)
         else collections this !! n)
  ∧ (db this = None →
     getCollections (c, this)
     = ((c, this),
        [Logged Debug (Text "Getting database collections")],
        Throw (null_db "listCollections"))).
Proof.
  split.
  - intros Hdb Hc.
    destruct (getCollections_listed _ _ _ _ Hdb Hc) as (Hf & Hs & Hcalls).
    repeat split; [exact Hf|exact Hs|exact Hcalls|].
    intros n. apply registered_lookup.
  - apply getCollections_unopened.
Qed.

(** *** A server that accepts every creation *)

Lemma for_each_created_final (names : list string) (st : C * t) :
  is_Some (db st.2) →
  (∀ n c, ∃ c', db_createCollection n c = (Ok tt, c')) →
  (final (for_each names
            (fun name => createCollection name ;;; ret tt) st)).2
  = with_collections (registered (collections st.2) names) st.2.
Proof.
  intros Hdb Hacc. revert st Hdb.
  induction names as [|x names IH]; intros [c this] Hdb.
  - cbn [for_each foldl]. unfold ret, final. cbn [fst snd].
    by rewrite with_collections_same.
  - cbn [snd] in Hdb. cbn [for_each]. unfold bind at 1. unfold bind at 1.
    destruct (Hacc x c) as [c' Hc].
    rewrite (createCollection_created _ _ _ _ Hdb Hc). unfold ret at 1.
    cbn [fst snd].
    specialize (IH (c', with_collections
                          (<[x := wrapper_of x]> (collections this)) this)
                  Hdb).
    unfold final in IH. cbn [fst snd] in IH.
    destruct (for_each names _ _) as [[st2 t2] r2].
    unfold final. cbn [fst snd] in *. by rewrite IH.
Qed.

Lemma initialize_created_final
    (st st1 : C * t) (tr1 : list event) (v : value)
    (items : list string) (c2 : C) :
  connect st = (st1, tr1, Ok v) →
  db_listCollections st1.1 = (Ok items, c2) →
  (∀ n c, ∃ c', db_createCollection n c = (Ok tt, c')) →
  (final (initialize st)).2
  = with_collections
      (registered (registered (collections st.2) items)
         (missing_of (registered (collections st.2) items)
            (collection_names st.2)))
      (with_db (getDatabase (name st.2)) st.2).
Proof.
  intros Hcon Hl Hacc.
  destruct (initialize_steps _ _ _ _ _ _ Hcon (connect_keeps_object st) Hl)
    as (tG & s3 & tC & _ & HC & ->).
  rewrite createCollections_loop in HC.
  match type of HC with
  | for_each ?l ?body ?s = _ =>
      assert (Hdb2 : is_Some (db s.2)) by (by eexists);
      pose proof (for_each_created_final l s Hdb2 Hacc) as Hf
  end.
  rewrite HC in Hf. unfold final in *. cbn [fst snd] in *.
  rewrite Hf. by destruct st as [c []].
Qed.

(** X18.  Against a server that lets the connection be made, lists its
    collections and accepts every creation, [initialize] resolves with
    [true], sets [db] to the database of the configured name, and
    leaves a registry that holds a wrapper for every listed name and for
    every requested name: a fresh wrapper under each listed name, the
    wrapper it had or else a fresh one under each requested name, and
    nothing new under any other name. *)
Theorem initialize_registers_listed_and_requested
    (st st1 : C * t) (tr1 : list event) (v : value)
    (items : list string) (c2 : C) :
  connect st = (st1, tr1, Ok v) →
  db_listCollections st1.1 = (Ok items, c2) →
  (∀ n c, ∃ c', db_createCollection n c = (Ok tt, c')) →
  settled (initialize st) = Ok (VBool true)
  ∧ db (final (initialize st)).2 = Some (name st.2)
  ∧ ∀ n,
      collections (final (initialize st)).2 !! n
      = if decide (n ∈ items) then Some (wrapper_of n)
        else if decide (n ∈ collection_names st.2)
             then Some (default (wrapper_of n) (collections st.2 !! n))
             else collections st.2 !! n.
Proof.
  intros Hcon Hl Hacc.
  split; [by eapply initialize_discovered|].
  rewrite (initialize_created_final _ _ _ _ _ _ Hcon Hl Hacc).
  split; [done|].
  intros n. cbn [collections with_collections].
  rewrite !registered_lookup.
  destruct (decide (n ∈ items)) as [Hin|Hnin].
  - by destruct (decide (n ∈ missing_of _ _)).
  - destruct (decide (n ∈ collection_names st.2)) as [Hr|Hnr].
    + destruct (collections st.2 !! n) as [w|] eqn:Hw.
      * rewrite decide_False; [done|].
        intros Hm. apply missing_of_spec in Hm as [_ Hm].
        rewrite registered_lookup, decide_False in Hm by done. congruence.
      * rewrite decide_True; [done|].
        apply missing_of_spec. split; [done|].
        by rewrite registered_lookup, decide_False.
    + rewrite decide_False; [done|].
      intros Hm. by apply missing_of_spec in Hm as [? _].
Qed.

End DatabaseMethodsMore.

(** ** The url of the connection *)

Section Construction.
Context `{Stringify}.
Import Database.

Lemma append_assoc (a b c : string) : (a +:+ b) +:+ c = a +:+ (b +:+ c).
Proof.
  induction a as [|x a IH]; [reflexivity|].
  change (String x ((a +:+ b) +:+ c) = String x (a +:+ (b +:+ c))).
  by f_equal.
Qed.

Lemma append_empty (s : string) : s +:+ "" = s.
Proof.
  induction s as [|x s IH]; [reflexivity|].
  change (String x (s +:+ "") = String x s). by f_equal.
Qed.

Lemma nonempty_string_spec v :
  nonempty_string v = true ↔ ∃ s, v = VStr s ∧ s ≠ "".
Proof.
  split.
  - destruct v; try done. unfold nonempty_string. cbn [typeof js_length].
    destruct s; [done|]. intros _. by eexists.
  - intros (s & -> & Hs). by destruct s.
Qed.

(** X19.  In the url that [createUrl] builds, the credentials are all
    or nothing.  Unless the user name and the password are both
    non-empty strings, the url (and the entry logged) is the one built
    with no credentials at all: a password alone never enters it.  When
    both are, the segment [user:password@] stands between the scheme
    and the host.  In the same way the database name is appended only
    when it is a non-empty string. *)
Theorem createUrl_credentials_all_or_nothing
    (username password host port name : value) :
  (nonempty_string username && nonempty_string password = false →
   createUrl username password host port name
   = createUrl (VStr "") (VStr "") host port name)
  ∧ (∀ u p,
      username = VStr u → password = VStr p → u ≠ "" → p ≠ "" →
      ∃ rest,
        (createUrl (VStr "") (VStr "") host port name).2
        = "mongodb://" +:+ rest
        ∧ (createUrl username password host port name).2
          = "mongodb://" +:+ u +:+ ":" +:+ p +:+ "@" +:+ rest)
  ∧ (nonempty_string name = false →
     createUrl username password host port name
     = createUrl username password host port (VStr "")).
Proof.
  split; [|split].
  - intros Hno. unfold createUrl.
    destruct (nonempty_string username); [|done].
    cbn [andb] in Hno. by rewrite Hno.
  - intros u p -> -> Hu Hp.
    exists (to_string host +:+ ":" +:+ to_string port
            +:+ (if nonempty_string name then "/" +:+ to_string name else "")).
    unfold createUrl.
    rewrite (proj2 (nonempty_string_spec (VStr u))) by eauto.
    rewrite (proj2 (nonempty_string_spec (VStr p))) by eauto.
    rewrite !to_string_VStr.
    cbn [snd nonempty_string typeof js_length String.length Nat.eqb negb].
    destruct (nonempty_string name); cbn [snd];
      by rewrite ?append_assoc, ?append_empty.
  - intros Hno. unfold createUrl. by rewrite Hno.
Qed.

Lemma missing_of_empty requested :
  missing_of (∅ : gmap string wrapper) requested = requested.
Proof.
  unfold missing_of. rewrite map_to_list_empty. cbn [fmap list_fmap existsb negb].
  induction requested as [|x l IH]; simpl; [done|]. by rewrite IH.
Qed.

(** X20.  The constructor takes a [url] option that is a string as the
    url of the connection, as it is (an empty string too) and without
    building or logging one; the other connection options are then not
    looked at.  Otherwise the url is the one that [createUrl] builds
    from the options and their defaults, and it is logged.  In both
    cases the object starts with no [db] and an empty registry.  Until
    [initialize] has set its [db], such an object lists and creates
    nothing: [getCollections] rejects with a type error, and so does
    [createCollections] at the first requested name, each after its
    debug entry and before any call to the server. *)
Theorem constructor_url {C : Type} `{MongoClient C} (o : options) (c : C) :
  (∀ u, opt_url o = VStr u →
        constructor o
        = ([], {| name := default "admin" (opt_name o);
                  url := u;
                  collection_names := default [] (opt_collection_names o);
                  db := None;
                  collections := ∅ |}))
  ∧ (typeof (opt_url o) ≠ TString →
     constructor o
     = let '(tr, url) :=
         createUrl (default_arg (VStr "") (opt_username o))
           (default_arg (VStr "") (opt_password o))
           (default_arg (VStr "localhost") (opt_host o))
           (default_arg (VNum 27017) (opt_port o))
           (VStr (default "admin" (opt_name o))) in
       (tr, {| name := default "admin" (opt_name o);
               url := url;
               collection_names := default [] (opt_collection_names o);
               db := None;
               collections := ∅ |}))
  ∧ db (constructor o).2 = None
  ∧ (∀ n, collections (constructor o).2 !! n = None)
  ∧ getCollections (c, (constructor o).2)
    = ((c, (constructor o).2),
       [Logged Debug (Text "Getting database collections")],
       Throw (null_db "listCollections"))
  ∧ (∀ n rest,
       createCollections (n :: rest) (c, (constructor o).2)
       = ((c, (constructor o).2),
          [Logged Debug (Text ("Creating " +:+ n +:+ " collection"))],
          Throw (null_db "createCollection"))).
Proof.
  assert (Hfresh : collections (constructor o).2 = ∅
                   ∧ db (constructor o).2 = None).
  { unfold constructor. destruct (default_arg VNull (opt_url o));
      try destruct (createUrl _ _ _ _ _); done. }
  destruct Hfresh as [Hc Hd].
  split; [|split; [|split; [|split; [|split]]]].
  - intros u Hu. unfold constructor. by rewrite Hu.
  - intros Hty. unfold constructor.
    destruct (opt_url o); try done.
  - exact Hd.
  - intros n. by rewrite Hc.
  - by apply getCollections_unopened.
  - intros n rest. rewrite createCollections_loop. cbn [snd].
    rewrite Hc, missing_of_empty. cbn [for_each]. unfold bind.
    by rewrite (createCollection_unopened _ _ _ Hd).
Qed.

End Construction.

(** ** The further properties, on concrete inputs *)

Lemma processFilter_stops_at_refused_element_witness :
  @Collection.processFilter hex_bson Edge.half_valid
  = (VObj [("_id", VObj [("$nin", VArr [VOid Sample.hex2]);
                         ("$in", VArr [VOid Sample.hex1; VStr "zz";
                                       VStr Sample.hex2]);
                         ("$exists", VBool true)]);
           ("a", VNum 1)],
     Throw (InvalidIdentifierFormat (VStr "zz"))).
Proof.
  apply (@processFilter_stops_at_refused_element hex_bson
           [("_id", VObj [("$nin", VArr [VStr Sample.hex2]);
                          ("$in", VArr [VStr Sample.hex1; VStr "zz";
                                        VStr Sample.hex2]);
                          ("$exists", VBool true)]);
            ("a", VNum 1)]
           [("$nin", VArr [VStr Sample.hex2])]
           [("$exists", VBool true)]
           "$in" [VStr Sample.hex1] [VStr Sample.hex2] (VStr "zz")).
  - compute_done.
  - compute_done.
  - reflexivity.
  - intros k l x Hin Hx.
    apply list_elem_of_singleton in Hin. injection Hin as -> ->.
    apply list_elem_of_singleton in Hx as ->. by eexists.
  - repeat constructor. by eexists.
  - reflexivity.
Defined.

Lemma processFilter_skips_scalar_operators_witness :
  @Collection.processFilter hex_bson Edge.scalar_operator
  = (Edge.scalar_operator, Ok tt).
Proof.
  apply (@processFilter_skips_scalar_operators hex_bson Edge.scalar_operator).
  - reflexivity.
  - intros k Hk. apply list_elem_of_singleton in Hk as ->. reflexivity.
Defined.

Lemma processFilter_twice_witness :
  @Collection.processFilter hex_bson
    (VObj [("_id", VObj [("$in", VArr [VOid Sample.hex1; VOid Sample.hex2]);
                         ("$exists", VBool true)]);
           ("b", VObj [("_id", VStr Sample.hex1)])])
  = (VObj [("_id", VObj [("$in", VArr [VOid Sample.hex1; VOid Sample.hex2]);
                         ("$exists", VBool true)]);
           ("b", VObj [("_id", VStr Sample.hex1)])], Ok tt).
Proof.
  apply (@processFilter_twice hex_bson
           [("_id", VObj [("$in", VArr [VStr Sample.hex1; VStr Sample.hex2]);
                          ("$exists", VBool true)]);
            ("b", VObj [("_id", VStr Sample.hex1)])]).
  - intros id. reflexivity.
  - compute_done.
  - intros ops Hops. injection Hops as <-. compute_done.
  - reflexivity.
  - reflexivity.
Defined.

Lemma sanitizeFilter_fixes_clean_filters_witness :
  Collection.sanitizeFilter Sample.doc = Some Sample.doc.
Proof.
  apply (sanitizeFilter_fixes_clean_filters Sample.doc);
    [discriminate | reflexivity].
Defined.

Lemma sanitizeFilter_strips_authored_operators_witness :
  ∃ clean,
    Collection.sanitizeFilter Sample.by_operators = Some clean
    ∧ get clean (Name "_id") = VObj []
    ∧ @Collection.processFilter hex_bson clean = (clean, Ok tt).
Proof.
  apply (@sanitizeFilter_strips_authored_operators hex_bson
           [("_id", VObj [("$in", VArr [VStr Sample.hex1; VStr Sample.hex2]);
                          ("$exists", VBool true)]);
            ("b", VObj [("_id", VStr Sample.hex1)])]
           [("$in", VArr [VStr Sample.hex1; VStr Sample.hex2]);
            ("$exists", VBool true)]).
  - reflexivity.
  - repeat constructor.
Defined.

Lemma refused_filter_reaches_no_store_witness :
  @Collection.deleteDocument hex_bson _ MemStore.native
    Sample.by_bad_string VUndef Sample.store
  = (Sample.store,
     [Logged Debug (Text "Deleting document");
      Logged Verbose (Dump Sample.by_bad_string);
      Logged Verbose (Dump (VObj []))],
     Throw (InvalidIdentifierFormat (VStr "zz"))).
Proof.
  apply (proj1 (@refused_filter_reaches_no_store hex_bson _ MemStore.native
                  Sample.by_bad_string Sample.by_bad_string VUndef
                  (InvalidIdentifierFormat (VStr "zz")) Sample.store
                  eq_refl)).
Defined.

Lemma missing_payload_is_a_type_error_witness :
  @Collection.replaceDocument hex_bson _ MemStore.native
    Sample.by_id VUndef VUndef Sample.store
  = (Sample.store, [],
     Throw (TypeError "Cannot convert undefined or null to object")).
Proof.
  apply (proj1 (@missing_payload_is_a_type_error hex_bson _ MemStore.native
                  Sample.by_id VUndef VUndef Sample.store
                  (or_introl eq_refl))).
Defined.

Lemma insertDocument_submits_document_as_given_witness :
  calls_of (emitted (@Collection.insertDocument _ MemStore.native
                       Sample.by_string VUndef Sample.store))
  = [InsertOne (VObj [("a", VNum 1); ("_id", VStr Sample.hex1)]) (VObj [])]
  ∧ calls_of (emitted (@Collection.getDocument hex_bson _ MemStore.native
                         Sample.by_string VUndef Sample.store))
    = [FindOne (VObj [("a", VNum 1); ("_id", VOid Sample.hex1)]) (VObj [])].
Proof.
  pose proof (@insertDocument_submits_document_as_given hex_bson _
                MemStore.native Sample.by_string VUndef Sample.store)
    as (Hinsert & _ & Hget).
  split; [exact Hinsert|].
  apply (Hget Sample.hex1 Sample.hex1); reflexivity.
Defined.

Lemma getDocuments_defaults_witness :
  @Collection.getDocuments hex_bson _ MemStore.native
    VUndef VUndef Sample.store
  = (Sample.store,
     [Logged Debug (Text "Getting documents");
      Logged Verbose (Dump (VObj []));
      Logged Verbose (Dump (VObj [("limit", VNum 10)]));
      Called (Find (VObj []) (VObj [("limit", VNum 10)]));
      Called (ToArray (VObj [("filter", VObj []);
                             ("options", VObj [("limit", VNum 10)])]))],
     Ok (VArr [Sample.doc])).
Proof.
  apply (proj1 (@getDocuments_defaults hex_bson _ MemStore.native
                  Sample.store)
           (VObj [("filter", VObj []); ("options", VObj [("limit", VNum 10)])])
           Sample.store [Sample.doc] Sample.store);
    reflexivity.
Defined.

Lemma connect_outcomes_witness :
  @Database.connect _ MemServer.client (Sample.server, Sample.database)
  = ((Sample.server, Sample.database),
     [Logged Debug (Text "Connecting to mongodb://localhost:27017/admin");
      Called Connect; Called IsConnected;
      Logged Info (Text "Connected to mongodb://localhost:27017/admin")],
     Ok (VBool true))
  ∧ @Database.connect _ MemServer.client
      (Edge.unreachable_server, Sample.database)
    = ((Edge.unreachable_server, Sample.database),
       [Logged Debug (Text "Connecting to mongodb://localhost:27017/admin");
        Called Connect],
       Throw (ConnectionFailure "connection refused")).
Proof.
  split.
  - apply (proj1 (proj2 (@connect_outcomes _ MemServer.client
                           Sample.server Sample.database))
             Sample.server Sample.server); reflexivity.
  - apply (proj1 (@connect_outcomes _ MemServer.client
                    Edge.unreachable_server Sample.database)
             (ConnectionFailure "connection refused")
             Edge.unreachable_server); reflexivity.
Defined.

Lemma initialize_stops_when_connect_fails_witness :
  settled (@Database.initialize _ MemServer.client
             (Edge.unreachable_server, Sample.database))
  = Throw (ConnectionFailure "connection refused")
  ∧ emitted (@Database.initialize _ MemServer.client
               (Edge.unreachable_server, Sample.database))
    = emitted (@Database.connect _ MemServer.client
                 (Edge.unreachable_server, Sample.database))
  ∧ (final (@Database.initialize _ MemServer.client
              (Edge.unreachable_server, Sample.database))).2
    = Sample.database.
Proof.
  apply (@initialize_stops_when_connect_fails _ MemServer.client
           (Edge.unreachable_server, Sample.database)
           (ConnectionFailure "connection refused")).
  reflexivity.
Defined.

Lemma registry_keys_name_their_wrappers_witness :
  Database.registry_ok
    (final (@Database.initialize _ MemServer.client
              (Sample.server, Sample.database))).2.
Proof.
  apply (@registry_keys_name_their_wrappers _ MemServer.client
           (Sample.server, Sample.database)).
  intros n w Hw. cbn in Hw. by rewrite lookup_empty in Hw.
Defined.

Lemma createCollections_asks_for_missing_names_witness :
  settled (@Database.createCollections _ OpenServer.client
             ["users"; "logs"; "users"] (["logs"], Edge.listed_database))
  = Ok tt
  ∧ calls_of (emitted (@Database.createCollections _ OpenServer.client
                         ["users"; "logs"; "users"]
                         (["logs"], Edge.listed_database)))
    = [CreateCollection "users"; CreateCollection "users"]
  ∧ @Database.createCollections _ OpenServer.client
      ["users"; "logs"; "users"] (["logs"], Sample.database)
    = ((["logs"], Sample.database),
       [Logged Debug (Text "Creating users collection")],
       Throw (Database.null_db "createCollection"))
  ∧ @Database.createCollections _ OpenServer.client
      ["logs"] (["logs"], Edge.listed_database)
    = ((["logs"], Edge.listed_database), [], Ok tt).
Proof.
  split; [|split; [|split]].
  - apply (proj1 (@createCollections_asks_for_missing_names _
                    OpenServer.client ["users"; "logs"; "users"]
                    (["logs"], Edge.listed_database))).
    by eexists.
  - rewrite (proj2 (proj1 (@createCollections_asks_for_missing_names _
                             OpenServer.client ["users"; "logs"; "users"]
                             (["logs"], Edge.listed_database))
                      (ex_intro _ "admin" eq_refl))).
    reflexivity.
  - apply (proj1 (proj2 (@createCollections_asks_for_missing_names _
                           OpenServer.client ["users"; "logs"; "users"]
                           (["logs"], Sample.database)))
             "users" ["logs"; "users"]); reflexivity.
  - apply (proj2 (proj2 (@createCollections_asks_for_missing_names _
                           OpenServer.client ["logs"]
                           (["logs"], Edge.listed_database)))).
    reflexivity.
Defined.

Lemma createCollection_then_getCollection_witness :
  settled (@Database.getCollection MemServer.t "carts"
             (final (@Database.createCollection _ MemServer.client "carts"
                       (Sample.server, Edge.opened_database))))
  = Ok (Some {| Database.collectionName := "carts" |})
  ∧ settled (@Database.getCollection MemServer.t "users"
               (final (@Database.createCollection _ MemServer.client "users"
                         (Sample.server, Edge.opened_database))))
    = settled (@Database.getCollection MemServer.t "users"
                 (Sample.server, Edge.opened_database))
  ∧ @Database.createCollection _ MemServer.client "carts"
      (Sample.server, Sample.database)
    = ((Sample.server, Sample.database),
       [Logged Debug (Text "Creating carts collection")],
       Throw (Database.null_db "createCollection")).
Proof.
  split; [|split].
  - apply (proj1 (@createCollection_then_getCollection _ MemServer.client
                    "carts" Sample.server Edge.opened_database)
             {| MemServer.reachable := true; MemServer.listable := true;
                MemServer.existing := ["logs"; "carts"];
                MemServer.refused := ["users"] |}).
    + by eexists.
    + reflexivity.
  - apply (proj1 (proj2 (@createCollection_then_getCollection _
                           MemServer.client "users" Sample.server
                           Edge.opened_database))
             (OperationFailure "collection cannot be created")
             Sample.server).
    + by eexists.
    + reflexivity.
  - apply (proj2 (proj2 (@createCollection_then_getCollection _
                           MemServer.client "carts" Sample.server
                           Sample.database))).
    reflexivity.
Defined.

Lemma getCollections_registers_listed_witness :
  final (@Database.getCollections _ MemServer.client
           (Sample.server, Edge.opened_database))
  = (Sample.server,
     Database.with_collections
       (<["logs" := {| Database.collectionName := "logs" |}]> ∅)
       Edge.opened_database)
  ∧ @Database.getCollections _ MemServer.client
      (Sample.server, Sample.database)
    = ((Sample.server, Sample.database),
       [Logged Debug (Text "Getting database collections")],
       Throw (Database.null_db "listCollections")).
Proof.
  split.
  - apply (proj1 (@getCollections_registers_listed _ MemServer.client
                    Sample.server Sample.server Edge.opened_database
                    ["logs"])).
    + by eexists.
    + reflexivity.
  - apply (proj2 (@getCollections_registers_listed _ MemServer.client
                    Sample.server Sample.server Sample.database ["logs"])).
    reflexivity.
Defined.

Lemma initialize_registers_listed_and_requested_witness :
  settled (@Database.initialize _ OpenServer.client
             (["logs"], Sample.database)) = Ok (VBool true)
  ∧ Database.db (final (@Database.initialize _ OpenServer.client
                          (["logs"], Sample.database))).2 = Some "admin".
Proof.
  pose proof (@initialize_registers_listed_and_requested _ OpenServer.client
                (["logs"], Sample.database) (["logs"], Sample.database)
                [Logged Debug
                   (Text "Connecting to mongodb://localhost:27017/admin");
                 Called Connect; Called IsConnected;
                 Logged Info
                   (Text "Connected to mongodb://localhost:27017/admin")]
                (VBool true) ["logs"] ["logs"] eq_refl eq_refl)
    as Hi.
  destruct Hi as (Hs & Hdb & _).
  - intros n c. by eexists.
  - split; [exact Hs|exact Hdb].
Defined.

Lemma createUrl_credentials_all_or_nothing_witness :
  @Database.createUrl js_stringify (VStr "") (VStr "secret")
    (VStr "db") (VNum 27017) (VStr "shop")
  = @Database.createUrl js_stringify (VStr "") (VStr "")
      (VStr "db") (VNum 27017) (VStr "shop")
  ∧ ∃ rest,
      (@Database.createUrl js_stringify (VStr "") (VStr "")
         (VStr "db") (VNum 27017) (VStr "shop")).2 = "mongodb://" +:+ rest
      ∧ (@Database.createUrl js_stringify (VStr "u") (VStr "secret")
           (VStr "db") (VNum 27017) (VStr "shop")).2
        = "mongodb://" +:+ "u" +:+ ":" +:+ "secret" +:+ "@" +:+ rest.
Proof.
  split.
  - apply (proj1 (@createUrl_credentials_all_or_nothing js_stringify
                    (VStr "") (VStr "secret") (VStr "db") (VNum 27017)
                    (VStr "shop"))).
    reflexivity.
  - apply (proj1 (proj2 (@createUrl_credentials_all_or_nothing js_stringify
                           (VStr "u") (VStr "secret") (VStr "db")
                           (VNum 27017) (VStr "shop")))
             "u" "secret"); [reflexivity | reflexivity | discriminate
                            | discriminate].
Defined.

Lemma constructor_url_witness :
  Database.url (@Database.constructor js_stringify Edge.url_options).2
  = "mongodb://elsewhere:27018"
  ∧ (@Database.constructor js_stringify Edge.url_options).1 = []
  ∧ Database.url (@Database.constructor js_stringify Edge.no_options).2
    = "mongodb://localhost:27017/admin".
Proof.
  split; [|split].
  - rewrite (proj1 (@constructor_url js_stringify _ MemServer.client
                      Edge.url_options Sample.server)
               "mongodb://elsewhere:27018" eq_refl).
    reflexivity.
  - rewrite (proj1 (@constructor_url js_stringify _ MemServer.client
                      Edge.url_options Sample.server)
               "mongodb://elsewhere:27018" eq_refl).
    reflexivity.
  - rewrite (proj1 (proj2 (@constructor_url js_stringify _ MemServer.client
                             Edge.no_options Sample.server))).
    + reflexivity.
    + discriminate.
Defined.
